(** * Event / Booking persistence layer: validation and normalisation hooks

    A shallow embedding of [database/event.model.ts] and
    [database/booking.model.ts]: the [slugify] helper, the two assertion
    helpers, the Event pre-save hook, the e-mail test and the Booking
    pre-save hook, together with the part of the JavaScript runtime they
    call (string methods, regular expressions, [Date]) and the part of the
    schema that shapes what the hooks see (the trimming and lowercasing
    setters, the unique index on the slug).

    Conventions.
    - A JavaScript string is a [string]: a sequence of code units, each an
      [ascii], read as the code unit of the same number (0..255, the Latin-1
      range of UTF-16).
    - A JavaScript number that the code only uses as an integer is a [Z].
    - A value that may be [undefined] (or [null]) is an [option].

    Mongoose's own [required] validators run before the hooks. They reject
    only documents that the assertions of the hooks reject as well (an
    absent or empty required path), so they are left out: every document is
    handed to the hook. *)

From Stdlib Require Import ZArith List String Ascii Bool Lia.
From Equations Require Import Equations.
From stdpp Require Import gmap.

Open Scope string_scope.
Open Scope Z_scope.

(* String concatenation computes by [simpl], as in the Standard Library. *)
#[local] Arguments append !s1 s2 / : simpl nomatch.

(** ** Code units and character classes *)

Module Char.

Definition code (c : ascii) : Z := Z.of_N (N_of_ascii c).

Definition between (lo hi : Z) (c : ascii) : bool :=
  (lo <=? code c) && (code c <=? hi).

(** [\d] and [0-9]. *)
Definition is_digit : ascii -> bool := between 48 57.

(** [a-z]. *)
Definition is_lower_az : ascii -> bool := between 97 122.

(** The class [a-z0-9] of the slug pattern, and its complement
    [[^a-z0-9]]. *)
Definition is_slug_char (c : ascii) : bool := is_lower_az c || is_digit c.
Definition non_slug_char (c : ascii) : bool := negb (is_slug_char c).

(** White space as [String.prototype.trim] and [\s] see it (WhiteSpace and
    LineTerminator of ECMAScript), among the code units below 256:
    TAB, LF, VT, FF, CR, SPACE and NBSP. *)
Definition is_space (c : ascii) : bool :=
  between 9 13 c || (code c =? 32) || (code c =? 160).

(** Letters that [toLowerCase] changes, among the code units below 256:
    [A-Z], and the Latin-1 capitals U+00C0..U+00DE without the
    multiplication sign U+00D7. Each maps to the code unit 32 above. *)
Definition is_upper (c : ascii) : bool :=
  between 65 90 c || (between 192 222 c && negb (code c =? 215)).

Definition to_lower (c : ascii) : ascii :=
  if is_upper c then ascii_of_N (Z.to_N (code c + 32)) else c.

Definition is_char (d : ascii) (c : ascii) : bool := Ascii.eqb c d.

(** [[^\s@]] of the e-mail pattern. *)
Definition not_space_at (c : ascii) : bool :=
  negb (is_space c || is_char "@" c).

End Char.

(** ** String methods of the runtime *)

Module Str.

(** [s.toLowerCase()] *)
Fixpoint toLowerCase (s : string) : string :=
  match s with
  | "" => ""
  | String c r => String (Char.to_lower c) (toLowerCase r)
  end.

(** Drops the longest prefix whose code units satisfy [p]. *)
Fixpoint skip_while (p : ascii -> bool) (s : string) : string :=
  match s with
  | "" => ""
  | String c r => if p c then skip_while p r else s
  end.

(** Drops the longest suffix whose code units satisfy [p]. *)
Fixpoint chop_while (p : ascii -> bool) (s : string) : string :=
  match s with
  | "" => ""
  | String c r =>
      match chop_while p r with
      | "" => if p c then "" else String c ""
      | r' => String c r'
      end
  end.

(** [s.trim()] *)
Definition trim (s : string) : string :=
  chop_while Char.is_space (skip_while Char.is_space s).

(** [s.slice(0, n)] for a constant [n >= 0]. *)
Definition slice0 (n : nat) (s : string) : string := substring 0 n s.

Fixpoint repeat_fill (fill : string) (cur : string) (n : nat) : string :=
  match n with
  | O => ""
  | S n' =>
      match cur with
      | "" =>
          match fill with
          | "" => ""
          | String c r => String c (repeat_fill fill r n')
          end
      | String c r => String c (repeat_fill fill r n')
      end
  end.

(** [s.padStart(target, fill)]: [s] itself when it is long enough or the
    filler is empty, else the filler repeated and cut to the missing
    length, then [s]. *)
Definition padStart (target : nat) (fill : string) (s : string) : string :=
  repeat_fill fill fill (target - String.length s) ++ s.

(** [every p s]: all code units of [s] satisfy [p]. *)
Fixpoint every (p : ascii -> bool) (s : string) : bool :=
  match s with
  | "" => true
  | String c r => p c && every p r
  end.

Definition rev (s : string) : string :=
  string_of_list_ascii (List.rev (list_ascii_of_string s)).

End Str.

(** ** Regular expressions

    The three patterns of the source that are only tested or matched are
    anchored at both ends ([^...$], no flags), so a match is a match of the
    whole string. [Regex.test] decides it with Brzozowski derivatives; the
    patterns are written with the constructors below as the source writes
    them. *)

Module Regex.

Inductive t : Type :=
| Void
| Eps
| Class (p : ascii -> bool)
| Seq (r1 r2 : t)
| Alt (r1 r2 : t)
| Star (r : t).

(** [r+], [r?], [r{2}], [r{4}], [r{1,2}] *)
Definition Plus (r : t) : t := Seq r (Star r).
Definition Opt (r : t) : t := Alt r Eps.
Definition Twice (r : t) : t := Seq r r.
Definition Four (r : t) : t := Seq r (Seq r (Seq r r)).
Definition OneOrTwo (r : t) : t := Seq r (Opt r).
Definition Lit (c : ascii) : t := Class (Char.is_char c).

Fixpoint nullable (r : t) : bool :=
  match r with
  | Void => false
  | Eps => true
  | Class _ => false
  | Seq r1 r2 => nullable r1 && nullable r2
  | Alt r1 r2 => nullable r1 || nullable r2
  | Star _ => true
  end.

Fixpoint deriv (c : ascii) (r : t) : t :=
  match r with
  | Void => Void
  | Eps => Void
  | Class p => if p c then Eps else Void
  | Seq r1 r2 =>
      if nullable r1
      then Alt (Seq (deriv c r1) r2) (deriv c r2)
      else Seq (deriv c r1) r2
  | Alt r1 r2 => Alt (deriv c r1) (deriv c r2)
  | Star r1 => Seq (deriv c r1) (Star r1)
  end.

(** [/^r$/.test(s)] *)
Fixpoint test (r : t) (s : string) : bool :=
  match s with
  | "" => nullable r
  | String c s' => test (deriv c r) s'
  end.

(** The strings a pattern denotes. *)
Inductive lang : t -> string -> Prop :=
| lang_eps : lang Eps ""
| lang_class p c : p c = true -> lang (Class p) (String c "")
| lang_seq r1 r2 s1 s2 : lang r1 s1 -> lang r2 s2 -> lang (Seq r1 r2) (s1 ++ s2)
| lang_alt_l r1 r2 s : lang r1 s -> lang (Alt r1 r2) s
| lang_alt_r r1 r2 s : lang r2 s -> lang (Alt r1 r2) s
| lang_star_nil r : lang (Star r) ""
| lang_star_cons r s1 s2 : lang r s1 -> lang (Star r) s2 -> lang (Star r) (s1 ++ s2).

End Regex.

(** ** The source's patterns *)

Definition digit : Regex.t := Regex.Class Char.is_digit.

(** [/^(\d{1,2}):(\d{2})$/] of [preSave] (the groups are read by
    [match_time] below). *)
Definition timePattern : Regex.t :=
  Regex.Seq (Regex.OneOrTwo digit) (Regex.Seq (Regex.Lit ":") (Regex.Twice digit)).

(** [/^[^\s@]+@[^\s@]+\.[^\s@]+$/] of [isValidEmail]. *)
Definition emailRegex : Regex.t :=
  let atom := Regex.Plus (Regex.Class Char.not_space_at) in
  Regex.Seq atom (Regex.Seq (Regex.Lit "@") (Regex.Seq atom (Regex.Seq (Regex.Lit ".") atom))).

(** The two stored formats the data model names: [^\d{4}-\d{2}-\d{2}$] and
    [^\d{2}:\d{2}$]. *)
Definition storedDatePattern : Regex.t :=
  Regex.Seq (Regex.Four digit)
    (Regex.Seq (Regex.Lit "-") (Regex.Seq (Regex.Twice digit)
       (Regex.Seq (Regex.Lit "-") (Regex.Twice digit)))).

Definition storedTimePattern : Regex.t :=
  Regex.Seq (Regex.Twice digit) (Regex.Seq (Regex.Lit ":") (Regex.Twice digit)).

(** ** Global replacements of [slugify] *)

(** [s.replace(/[p]+/g, rep)] for a character class [p]: the scan goes left
    to right; where the code unit at hand is in the class, the greedy [+]
    takes the whole run of such units, the run is replaced by [rep] and the
    scan goes on behind it; any other code unit is copied. *)
Equations? replace_runs (p : ascii -> bool) (rep : string) (s : string) : string
  by wf (String.length s) lt :=
replace_runs p rep "" := "";
replace_runs p rep (String c r) with p c => {
  | true := rep ++ replace_runs p rep (Str.skip_while p r);
  | false := String c (replace_runs p rep r) }.
Proof.
  - clear replace_runs. induction r as [|d r IH]; simpl; [lia|].
    destruct (p d); simpl in *; lia.
  - simpl; lia.
Qed.

(** Does [/-+$/] match at the start of [s]: [s] is one dash or more, up to
    its end. *)
Definition dashes_to_end (s : string) : bool :=
  match s with
  | "" => false
  | String _ _ => Str.every (Char.is_char "-") s
  end.

(** The scan of [/^-+|-+$/g] behind index 0: [^-+] cannot match any more, and
    [-+$] matches where only dashes are left. *)
Fixpoint drop_final_dashes (s : string) : string :=
  match s with
  | "" => ""
  | String c r => if dashes_to_end s then "" else String c (drop_final_dashes r)
  end.

(** [s.replace(/^-+|-+$/g, empty)]: at index 0 the first alternative takes
    the leading run of dashes, if there is one; behind that run, or from
    index 0 when the string does not start with a dash (so that neither
    alternative matches there), the scan is [drop_final_dashes]. *)
Definition replace_edge_dashes (s : string) : string :=
  drop_final_dashes (Str.skip_while (Char.is_char "-") s).

(** ** [slugify] (event.model.ts, lines 36-42) *)

Definition slugify (value : string) : string :=
  replace_edge_dashes
    (replace_runs Char.non_slug_char "-"
       (Str.trim (Str.toLowerCase value))).

(** The algorithm as the specification words it: lowercase; trim; every
    maximal run of characters outside [a-z0-9] becomes a single dash; leading
    and trailing dashes are stripped. [squeeze] emits the dash at the first
    character of a run and drops the others of the run. *)
Fixpoint squeeze (p : ascii -> bool) (in_run : bool) (s : string) : string :=
  match s with
  | "" => ""
  | String c r =>
      if p c
      then (if in_run then squeeze p true r else String "-" (squeeze p true r))
      else String c (squeeze p false r)
  end.

Definition strip_dashes (s : string) : string :=
  Str.chop_while (Char.is_char "-") (Str.skip_while (Char.is_char "-") s).

Definition slugify_spec (title : string) : string :=
  strip_dashes (squeeze Char.non_slug_char false (Str.trim (Str.toLowerCase title))).

(** ** Numbers and their decimal forms *)

Module Num.

Definition digit_value (c : ascii) : Z := Char.code c - 48.
Definition digit_char (d : Z) : ascii := ascii_of_N (Z.to_N (48 + d)).

Fixpoint digits_value (acc : Z) (s : string) : Z :=
  match s with
  | "" => acc
  | String c r => digits_value (10 * acc + digit_value c) r
  end.

(** [Number(s)] for a string of decimal digits (the only strings the hooks
    convert: groups of [\d] matched by a pattern). *)
Definition ofDigits (s : string) : Z := digits_value 0 s.

(** The decimal digits of [n >= 0], most significant first, in front of
    [acc]; [fuel] bounds the number of digits. *)
Fixpoint decimal (fuel : nat) (n : Z) (acc : string) : string :=
  match fuel with
  | O => acc
  | S fuel' =>
      let acc' := String (digit_char (n mod 10)) acc in
      if n <? 10 then acc' else decimal fuel' (n / 10) acc'
  end.

(** [n.toString()] for an integer [n]. *)
Definition toString (n : Z) : string :=
  if n <? 0
  then String "-" (decimal (S (Z.to_nat (- n))) (- n) "")
  else decimal (S (Z.to_nat n)) n "".

(** [n] as exactly [width] decimal digits, zero-padded (the low [width]
    digits when [n] has more). *)
Fixpoint fixed (width : nat) (n : Z) : string :=
  match width with
  | O => ""
  | S w => fixed w (n / 10) ++ String (digit_char (n mod 10)) ""
  end.

End Num.

(** ** [Date]: time values, calendar arithmetic, [toISOString], parsing

    A time value is a number of milliseconds since 1970-01-01T00:00:00Z;
    [None] stands for [NaN] (an invalid date). The calendar functions are
    those of ECMAScript (Day, DayFromYear, YearFromTime, MonthFromTime,
    DateFromTime, MakeDay, MakeDate, TimeClip). *)

Module JsDate.

Definition msPerDay : Z := 86400000.
Definition maxTime : Z := 8640000000000000.

Definition Day (t : Z) : Z := t / msPerDay.
Definition TimeWithinDay (t : Z) : Z := t mod msPerDay.

Definition isLeap (y : Z) : bool :=
  (y mod 4 =? 0) && (negb (y mod 100 =? 0) || (y mod 400 =? 0)).

Definition DaysInYear (y : Z) : Z := if isLeap y then 366 else 365.

Definition DayFromYear (y : Z) : Z :=
  365 * (y - 1970) + (y - 1969) / 4 - (y - 1901) / 100 + (y - 1601) / 400.

(** The largest year [y] with [DayFromYear y <= Day t]: an estimate from the
    mean length of a year, moved by one where it is off. *)
Definition YearFromTime (t : Z) : Z :=
  let d := Day t in
  let y := 1970 + (400 * d) / 146097 in
  if d <? DayFromYear y then y - 1
  else if DayFromYear (y + 1) <=? d then y + 1
  else y.

Definition InLeapYear (t : Z) : Z := if isLeap (YearFromTime t) then 1 else 0.

Definition DayWithinYear (t : Z) : Z := Day t - DayFromYear (YearFromTime t).

(** Month number, 0 = January. *)
Definition MonthFromTime (t : Z) : Z :=
  let d := DayWithinYear t in
  let l := InLeapYear t in
  if d <? 31 then 0
  else if d <? 59 + l then 1
  else if d <? 90 + l then 2
  else if d <? 120 + l then 3
  else if d <? 151 + l then 4
  else if d <? 181 + l then 5
  else if d <? 212 + l then 6
  else if d <? 243 + l then 7
  else if d <? 273 + l then 8
  else if d <? 304 + l then 9
  else if d <? 334 + l then 10
  else 11.

(** Day of the month, 1..31. *)
Definition DateFromTime (t : Z) : Z :=
  let d := DayWithinYear t in
  let l := InLeapYear t in
  match MonthFromTime t with
  | 0 => d + 1
  | 1 => d - 30
  | 2 => d - 58 - l
  | 3 => d - 89 - l
  | 4 => d - 119 - l
  | 5 => d - 150 - l
  | 6 => d - 180 - l
  | 7 => d - 211 - l
  | 8 => d - 242 - l
  | 9 => d - 272 - l
  | 10 => d - 303 - l
  | _ => d - 333 - l
  end.

Definition HourFromTime (t : Z) : Z := (t / 3600000) mod 24.
Definition MinFromTime (t : Z) : Z := (t / 60000) mod 60.
Definition SecFromTime (t : Z) : Z := (t / 1000) mod 60.
Definition msFromTime (t : Z) : Z := t mod 1000.

(** Days of the year before month [m] (0 = January). *)
Definition daysBeforeMonth (leap : Z) (m : Z) : Z :=
  match m with
  | 0 => 0
  | 1 => 31
  | 2 => 59 + leap
  | 3 => 90 + leap
  | 4 => 120 + leap
  | 5 => 151 + leap
  | 6 => 181 + leap
  | 7 => 212 + leap
  | 8 => 243 + leap
  | 9 => 273 + leap
  | 10 => 304 + leap
  | _ => 334 + leap
  end.

(** Days of month [m] (1 = January) of year [y]. *)
Definition daysInMonth (y : Z) (m : Z) : Z :=
  match m with
  | 2 => if isLeap y then 29 else 28
  | 4 | 6 | 9 | 11 => 30
  | _ => 31
  end.

(** [MakeDay(year, month, date)], month counted from 0. *)
Definition MakeDay (year month date : Z) : Z :=
  let ym := year + month / 12 in
  let mn := month mod 12 in
  DayFromYear ym + daysBeforeMonth (if isLeap ym then 1 else 0) mn + date - 1.

Definition MakeDate (day time : Z) : Z := day * msPerDay + time.

Definition TimeClip (t : Z) : option Z :=
  if Z.abs t <=? maxTime then Some t else None.

(** [new Date(t).toISOString()] for a valid time value: the UTC calendar
    date and time, the year as four digits when it is within 0..9999 and
    as a sign and six digits otherwise. *)
Definition isoYear (y : Z) : string :=
  if (0 <=? y) && (y <=? 9999) then Num.fixed 4 y
  else (if y <? 0 then "-" else "+") ++ Num.fixed 6 (Z.abs y).

Definition toISOString (t : Z) : string :=
  isoYear (YearFromTime t) ++ "-" ++ Num.fixed 2 (MonthFromTime t + 1)
    ++ "-" ++ Num.fixed 2 (DateFromTime t)
    ++ "T" ++ Num.fixed 2 (HourFromTime t)
    ++ ":" ++ Num.fixed 2 (MinFromTime t)
    ++ ":" ++ Num.fixed 2 (SecFromTime t)
    ++ "." ++ Num.fixed 3 (msFromTime t) ++ "Z".

(** *** Parsing

    ECMAScript fixes the result of [Date.parse] on the strings of its own
    date-time format and leaves every other string to the implementation.
    The date-only forms of the format ([YYYY], [YYYY-MM], [YYYY-MM-DD], the
    year also as a sign and six digits) are read here; they denote midnight
    UTC. Every other string (a form with a time of day, whose reading may
    depend on the local time zone; a date-only form with a field out of
    range; any string outside the format) goes to [fallback], the reading
    of the implementation at hand. *)

(** Reads exactly [n] decimal digits. *)
Fixpoint take_digits (n : nat) (acc : Z) (s : string) : option (Z * string) :=
  match n with
  | O => Some (acc, s)
  | S n' =>
      match s with
      | String c r =>
          if Char.is_digit c
          then take_digits n' (10 * acc + Num.digit_value c) r
          else None
      | "" => None
      end
  end.

Definition read_year (s : string) : option (Z * string) :=
  match s with
  | String "+" r => take_digits 6 0 r
  | String "-" r =>
      match take_digits 6 0 r with
      | Some (y, r') => if y =? 0 then None else Some (- y, r')
      | None => None
      end
  | _ => take_digits 4 0 s
  end.

(** The fields (year, month 1..12, day 1..31) of a date-only form. *)
Definition read_date_only (s : string) : option (Z * Z * Z) :=
  match read_year s with
  | None => None
  | Some (y, "") => Some (y, 1, 1)
  | Some (y, String "-" r) =>
      match take_digits 2 0 r with
      | Some (m, "") => Some (y, m, 1)
      | Some (m, String "-" r') =>
          match take_digits 2 0 r' with
          | Some (d, "") => Some (y, m, d)
          | _ => None
          end
      | _ => None
      end
  | Some _ => None
  end.

Definition in_calendar (y m d : Z) : bool :=
  (1 <=? m) && (m <=? 12) && (1 <=? d) && (d <=? daysInMonth y m).

(** [new Date(s).getTime()] for a string [s]. *)
Definition parse (fallback : string -> option Z) (s : string) : option Z :=
  match read_date_only s with
  | Some (y, m, d) =>
      if in_calendar y m d
      then TimeClip (MakeDate (MakeDay y (m - 1) d) 0)
      else match fallback s with Some t => TimeClip t | None => None end
  | None => match fallback s with Some t => TimeClip t | None => None end
  end.

End JsDate.

(** ** Failures

    Every failure of the two hooks is a thrown [Error] that carries a
    message. The constructors name the throw sites by the failure kinds of
    the specification:
    - [MissingField f]: 'Field f is required and must be a non-empty
      string.' (assertNonEmptyString, and the e-mail check of the Booking
      hook), 'Field eventId is required.' (Booking hook);
    - [InvalidArrayField f]: 'Field f is required and must be a non-empty
      array of strings.' (assertNonEmptyStringArray);
    - [InvalidDate]: 'Invalid date value. Expected a parsable date string.';
    - [InvalidTime BadTimeFormat]: 'Invalid time value. Expected format
      HH:MM in 24-hour time.';
    - [InvalidTime TimeOutOfRange]: 'Invalid time value. Hours must be 0-23
      and minutes 0-59.';
    - [InvalidEmail]: 'Field email must be a valid email address.';
    - [DanglingReference]: 'Cannot create booking: referenced event does
      not exist.';
    - [DuplicateKey]: the storage engine's rejection of a second record with
      the same slug (the unique index on slug);
    - [DependencyUnavailable]: the existence query itself failed (its
      promise was rejected), and the rejection passes through the hook. *)

Inductive TimeFault : Type := BadTimeFormat | TimeOutOfRange.

Inductive Error : Type :=
| MissingField (fieldName : string)
| InvalidArrayField (fieldName : string)
| InvalidDate
| InvalidTime (why : TimeFault)
| InvalidEmail
| DanglingReference
| DuplicateKey
| DependencyUnavailable.

(** The result of code that may throw. *)
Definition Throws (A : Type) : Type := (Error + A)%type.

(** ** Event documents (event.model.ts)

    The in-flight document the hook receives as [this]. A string path holds
    a string or is absent ([None]); an array path holds an array, whose
    elements are strings or something else ([None]), or is absent.
    [modifiedPaths] is what [isModified] reports. The timestamps, which the
    hook never reads or writes, are left out. *)

Definition ObjectId : Type := N.

Record EventDocument : Type := mkEvent {
  _id : ObjectId;
  title : option string;
  slug : option string;
  description : option string;
  overview : option string;
  image : option string;
  venue : option string;
  location : option string;
  date : option string;
  time : option string;
  mode : option string;
  audience : option string;
  agenda : option (list (option string));
  organizer : option string;
  tags : option (list (option string));
  modifiedPaths : list string
}.

(** The document with another date or another time and all else as it is,
    the modified paths too: the documents a write starts from are built
    with these. The assignments of the hook are [assign_date],
    [assign_time] and [assign_slug] below. *)
Definition set_date (v : string) (d : EventDocument) : EventDocument :=
  mkEvent (_id d) (title d) (slug d) (description d) (overview d) (image d)
    (venue d) (location d) (Some v) (time d) (mode d) (audience d) (agenda d)
    (organizer d) (tags d) (modifiedPaths d).

Definition set_time (v : string) (d : EventDocument) : EventDocument :=
  mkEvent (_id d) (title d) (slug d) (description d) (overview d) (image d)
    (venue d) (location d) (date d) (Some v) (mode d) (audience d) (agenda d)
    (organizer d) (tags d) (modifiedPaths d).

(** [this.isModified(path)] *)
Definition isModified (path : string) (d : EventDocument) : bool :=
  existsb (String.eqb path) (modifiedPaths d).

(** Marks [path] as modified. *)
Definition mark_modified (path : string) (paths : list string) : list string :=
  if existsb (String.eqb path) paths then paths else path :: paths.

(** The modified paths after an assignment to [path]: the path is marked
    when the value assigned differs from the one it held. *)
Definition marked (path : string) (old new : option string) (paths : list string)
    : list string :=
  if bool_decide (old = new) then paths else mark_modified path paths.

(** [this.date = v], [this.time = v], [this.slug = v]: the assignment goes
    through the document's setter, which marks the path as modified when
    the value assigned is not the one the path held. *)
Definition assign_date (v : string) (d : EventDocument) : EventDocument :=
  mkEvent (_id d) (title d) (slug d) (description d) (overview d) (image d)
    (venue d) (location d) (Some v) (time d) (mode d) (audience d) (agenda d)
    (organizer d) (tags d) (marked "date" (date d) (Some v) (modifiedPaths d)).

Definition assign_time (v : string) (d : EventDocument) : EventDocument :=
  mkEvent (_id d) (title d) (slug d) (description d) (overview d) (image d)
    (venue d) (location d) (date d) (Some v) (mode d) (audience d) (agenda d)
    (organizer d) (tags d) (marked "time" (time d) (Some v) (modifiedPaths d)).

Definition assign_slug (v : string) (d : EventDocument) : EventDocument :=
  mkEvent (_id d) (title d) (Some v) (description d) (overview d) (image d)
    (venue d) (location d) (date d) (time d) (mode d) (audience d) (agenda d)
    (organizer d) (tags d) (marked "slug" (slug d) (Some v) (modifiedPaths d)).

(** [!v] for a value that is a string or absent: the empty string is falsy
    as well. *)
Definition falsy (v : option string) : bool :=
  match v with
  | None => true
  | Some s => String.eqb s ""
  end.

(** *** The assertion helpers (lines 47-60) *)

Definition blank (s : string) : bool := (String.length (Str.trim s) =? 0)%nat.

Definition assertNonEmptyString (value : option string) (fieldName : string) : Throws unit :=
  match value with
  | Some s => if blank s then inl (MissingField fieldName) else inr tt
  | None => inl (MissingField fieldName)
  end.

Definition not_nonblank_string (v : option string) : bool :=
  match v with
  | Some s => blank s
  | None => true
  end.

Definition assertNonEmptyStringArray (value : option (list (option string)))
    (fieldName : string) : Throws unit :=
  match value with
  | Some l =>
      if (List.length l =? 0)%nat || existsb not_nonblank_string l
      then inl (InvalidArrayField fieldName)
      else inr tt
  | None => inl (InvalidArrayField fieldName)
  end.

(** *** The monad of the hook

    The hook reads and assigns fields of [this] and may throw; what it has
    assigned before a throw stays assigned. So a computation takes the
    document and returns the document with the result or the error. *)

Definition Hook (A : Type) : Type := EventDocument -> EventDocument * Throws A.

#[export] Instance Hook_ret : MRet Hook := fun A a d => (d, inr a).

#[export] Instance Hook_bind : MBind Hook := fun A B f m d =>
  match m d with
  | (d', inl e) => (d', inl e)
  | (d', inr a) => f a d'
  end.

Definition throw {A : Type} (e : Error) : Hook A := fun d => (d, inl e).
Definition this {A : Type} (path : EventDocument -> A) : Hook A := fun d => (d, inr (path d)).
Definition assign (set : EventDocument -> EventDocument) : Hook unit := fun d => (set d, inr tt).
Definition call {A : Type} (r : Throws A) : Hook A := fun d => (d, r).

(** [time.match(/^(\d{1,2}):(\d{2})$/)]: the two groups, or [None] for
    [null]. A match is either a digit, a colon and two digits, or two
    digits, a colon and two digits. *)
Definition match_time (s : string) : option (string * string) :=
  match s with
  | String h (String c (String m1 (String m2 ""))) =>
      if Char.is_digit h && Char.is_char ":" c && Char.is_digit m1 && Char.is_digit m2
      then Some (String h "", String m1 (String m2 ""))
      else None
  | String h1 (String h2 (String c (String m1 (String m2 "")))) =>
      if Char.is_digit h1 && Char.is_digit h2 && Char.is_char ":" c
         && Char.is_digit m1 && Char.is_digit m2
      then Some (String h1 (String h2 ""), String m1 (String m2 ""))
      else None
  | _ => None
  end.

Definition pad2 (n : Z) : string := Str.padStart 2 "0" (Num.toString n).

Section EventHook.

(** What the implementation's [Date] makes of a string outside the date-only
    forms of the ECMAScript format. *)
Variable fallbackParse : string -> option Z.

(** *** The pre-save hook (lines 91-135) *)

Definition validateStrings : Hook unit :=
  v ← this title; call (assertNonEmptyString v "title");;
  v ← this description; call (assertNonEmptyString v "description");;
  v ← this overview; call (assertNonEmptyString v "overview");;
  v ← this image; call (assertNonEmptyString v "image");;
  v ← this venue; call (assertNonEmptyString v "venue");;
  v ← this location; call (assertNonEmptyString v "location");;
  v ← this date; call (assertNonEmptyString v "date");;
  v ← this time; call (assertNonEmptyString v "time");;
  v ← this mode; call (assertNonEmptyString v "mode");;
  v ← this audience; call (assertNonEmptyString v "audience");;
  v ← this organizer; call (assertNonEmptyString v "organizer").

Definition validateArrays : Hook unit :=
  v ← this agenda; call (assertNonEmptyStringArray v "agenda");;
  v ← this tags; call (assertNonEmptyStringArray v "tags").

(** Lines 109-115. The assertion on [date] has passed, so it is a string. *)
Definition normalizeDate : Hook unit :=
  v ← this date;
  match JsDate.parse fallbackParse (default "" v) with
  | None => throw InvalidDate
  | Some parsedDate => assign (assign_date (Str.slice0 10 (JsDate.toISOString parsedDate)))
  end.

(** Lines 117-129. *)
Definition normalizeTime : Hook unit :=
  v ← this time;
  let time := Str.trim (default "" v) in
  match match_time time with
  | None => throw (InvalidTime BadTimeFormat)
  | Some (g1, g2) =>
      let hours := Num.ofDigits g1 in
      let minutes := Num.ofDigits g2 in
      if (hours <? 0) || (hours >? 23) || (minutes <? 0) || (minutes >? 59)
      then throw (InvalidTime TimeOutOfRange)
      else assign (assign_time (pad2 hours ++ ":" ++ pad2 minutes))
  end.

(** Lines 131-134. *)
Definition updateSlug : Hook unit :=
  modified ← this (isModified "title");
  current ← this slug;
  if modified || falsy current
  then v ← this title; assign (assign_slug (slugify (default "" v)))
  else mret tt.

Definition preSave : Hook unit :=
  validateStrings;;
  validateArrays;;
  normalizeDate;;
  normalizeTime;;
  updateSlug.

End EventHook.

(** *** Documents as the schema builds them (lines 62-83)

    [construct raw] is [new Event(raw)]: the paths declared with
    [trim: true] pass through the trimming setter, and every path that was
    given counts as modified. [assign_description v] is
    [doc.description = v] on a loaded document; it marks the path as
    modified (Mongoose does so when the value differs; the hook only ever
    asks about the title). *)

Definition present {A : Type} (path : string) (v : option A) : list string :=
  match v with
  | Some _ => [path]
  | None => []
  end.

Definition construct (raw : EventDocument) : EventDocument :=
  mkEvent (_id raw)
    (Str.trim <$> title raw) (slug raw)
    (Str.trim <$> description raw) (Str.trim <$> overview raw)
    (Str.trim <$> image raw) (Str.trim <$> venue raw)
    (Str.trim <$> location raw) (date raw) (time raw)
    (Str.trim <$> mode raw) (Str.trim <$> audience raw) (agenda raw)
    (Str.trim <$> organizer raw) (tags raw)
    (present "title" (title raw) ++ present "slug" (slug raw)
     ++ present "description" (description raw) ++ present "overview" (overview raw)
     ++ present "image" (image raw) ++ present "venue" (venue raw)
     ++ present "location" (location raw) ++ present "date" (date raw)
     ++ present "time" (time raw) ++ present "mode" (mode raw)
     ++ present "audience" (audience raw) ++ present "agenda" (agenda raw)
     ++ present "organizer" (organizer raw) ++ present "tags" (tags raw))%list.

Definition assign_description (v : string) (d : EventDocument) : EventDocument :=
  mkEvent (_id d) (title d) (slug d) (Some (Str.trim v)) (overview d) (image d)
    (venue d) (location d) (date d) (time d) (mode d) (audience d) (agenda d)
    (organizer d) (tags d) ("description" :: modifiedPaths d).

Definition clear_modified (d : EventDocument) : EventDocument :=
  mkEvent (_id d) (title d) (slug d) (description d) (overview d) (image d)
    (venue d) (location d) (date d) (time d) (mode d) (audience d) (agenda d)
    (organizer d) (tags d) [].

(** ** Booking documents and their hook (booking.model.ts) *)

Module Booking.

Record Document : Type := mkBooking {
  id : ObjectId;
  eventId : option ObjectId;
  email : option string
}.

(** The setters of the [email] path (lines 49-54): [lowercase: true] and
    [trim: true]. *)
Definition email_setter (v : string) : string := Str.trim (Str.toLowerCase v).

(** [new Booking({ eventId, email })] *)
Definition construct (i : ObjectId) (ev : option ObjectId) (mail : option string) : Document :=
  mkBooking i ev (email_setter <$> mail).

(** Lines 36-40. *)
Definition isValidEmail (value : string) : bool := Regex.test emailRegex value.

(** What [await Event.exists({ _id }).lean()] gives: a document, [null], or
    a rejection. *)
Inductive Answer : Type := Found | NotFound | Rejected.

(** A computation that may await the existence query: either it is done, or
    it asks about an identifier and goes on with the answer. *)
Inductive Async (A : Type) : Type :=
| Done (r : Throws A)
| AwaitExists (eventId : ObjectId) (k : Answer -> Async A).
Arguments Done {A} r.
Arguments AwaitExists {A} eventId k.

(** The pre-save hook (lines 71-89). It assigns nothing to [this]. *)
Definition preSave (this : Document) : Async unit :=
  match eventId this with
  | None => Done (inl (MissingField "eventId"))
  | Some ev =>
      match email this with
      | None => Done (inl (MissingField "email"))
      | Some mail =>
          if blank mail then Done (inl (MissingField "email"))
          else if negb (isValidEmail mail) then Done (inl InvalidEmail)
          else AwaitExists ev (fun eventExists =>
                 match eventExists with
                 | Found => Done (inr tt)
                 | NotFound => Done (inl DanglingReference)
                 | Rejected => Done (inl DependencyUnavailable)
                 end)
      end
  end.

(** Runs a computation against a storage gateway; the first component lists
    the identifiers the gateway was asked about, in order. *)
Fixpoint run {A : Type} (gateway : ObjectId -> Answer) (p : Async A)
    : list ObjectId * Throws A :=
  match p with
  | Done r => ([], r)
  | AwaitExists ev k =>
      let '(asked, r) := run gateway (k (gateway ev)) in (ev :: asked, r)
  end.

End Booking.

(** ** The storage engine *)

Record Database : Type := mkDatabase {
  events : gmap ObjectId EventDocument;
  bookings : gmap ObjectId Booking.Document
}.

(** [Event.exists({ _id })] answered from the stored Events. *)
Definition Event_exists (db : Database) (i : ObjectId) : Booking.Answer :=
  match events db !! i with
  | Some _ => Booking.Found
  | None => Booking.NotFound
  end.

(** The unique index on [slug] (lines 65 and 138): is the slug held by a
    stored Event other than [i]? *)
Definition slug_taken (db : Database) (i : ObjectId) (s : option string) : bool :=
  existsb (fun '(j, e) => negb (j =? i)%N && bool_decide (slug e = s))
          (map_to_list (events db)).

(** Modelled from the spec: the storage engine's [save], which is not part
    of the sources (section 6, [precommit] and [uniqueConstraint]): it runs
    the hook on the in-flight document before persisting; when the hook
    throws, nothing is persisted; otherwise the document as the hook left it
    is stored under its identifier, unless the unique index rejects its
    slug. The caller keeps the in-flight document, which after a commit has
    no modified path left. *)
Definition saveEvent (fallbackParse : string -> option Z) (db : Database)
    (doc : EventDocument) : Database * EventDocument * Throws unit :=
  match preSave fallbackParse doc with
  | (doc', inl e) => (db, doc', inl e)
  | (doc', inr _) =>
      if slug_taken db (_id doc') (slug doc')
      then (db, doc', inl DuplicateKey)
      else
        let stored := clear_modified doc' in
        (mkDatabase (<[_id doc' := stored]> (events db)) (bookings db), stored, inr tt)
  end.

(** Modelled from the spec: the same contract for a Booking; the hook's
    existence query goes to [gateway]. The second component lists the
    identifiers the gateway was asked about. *)
Definition saveBooking (gateway : ObjectId -> Booking.Answer) (db : Database)
    (doc : Booking.Document) : Database * list ObjectId * Throws unit :=
  match Booking.run gateway (Booking.preSave doc) with
  | (asked, inl e) => (db, asked, inl e)
  | (asked, inr _) =>
      (mkDatabase (events db) (<[Booking.id doc := doc]> (bookings db)), asked, inr tt)
  end.

(** ** Vocabulary of the statements *)

(** The value is a string with something other than white space in it. *)
Definition nonblank (v : option string) : bool := negb (not_nonblank_string v).

(** The array is present, not empty, and all its elements are such strings. *)
Definition array_valid (v : option (list (option string))) : bool :=
  match v with
  | Some l => negb (List.length l =? 0)%nat && forallb nonblank l
  | None => false
  end.

(** The paths [validateStrings] goes through, in its order. *)
Definition required_strings (d : EventDocument) : list (string * option string) :=
  [("title", title d); ("description", description d); ("overview", overview d);
   ("image", image d); ("venue", venue d); ("location", location d);
   ("date", date d); ("time", time d); ("mode", mode d);
   ("audience", audience d); ("organizer", organizer d)].

(** The outcome of asserting a list of paths one after the other. *)
Fixpoint first_failure (l : list (string * option string)) : Throws unit :=
  match l with
  | [] => inr tt
  | (n, v) :: l' =>
      match assertNonEmptyString v n with
      | inl e => inl e
      | inr _ => first_failure l'
      end
  end.

(** All required strings except the path [skip], and both arrays, are
    valid. *)
Definition valid_except (skip : string) (d : EventDocument) : bool :=
  forallb (fun '(n, v) => String.eqb n skip || nonblank v) (required_strings d)
  && array_valid (agenda d) && array_valid (tags d).

(** The date of the document is one the runtime can parse. *)
Definition date_parses (fallbackParse : string -> option Z) (d : EventDocument) : bool :=
  match JsDate.parse fallbackParse (default "" (date d)) with
  | Some _ => true
  | None => false
  end.

(** The slug a successful run of the hook leaves on the document. *)
Definition next_slug (d : EventDocument) : option string :=
  if isModified "title" d || falsy (slug d)
  then Some (slugify (default "" (title d)))
  else slug d.


(** [s] writes the time [h]:[m] as H:MM (hour below ten) or HH:MM. *)
Definition clock_form (h m : Z) (s : string) : Prop :=
  s = Num.fixed 2 h ++ ":" ++ Num.fixed 2 m
  \/ (h <= 9 /\ s = Num.fixed 1 h ++ ":" ++ Num.fixed 2 m).

(** The UTC calendar day of a time value, as [YYYY-MM-DD] when the year
    has four digits. *)
Definition utc_day (t : Z) : string :=
  Num.fixed 4 (JsDate.YearFromTime t) ++ "-" ++ Num.fixed 2 (JsDate.MonthFromTime t + 1)
    ++ "-" ++ Num.fixed 2 (JsDate.DateFromTime t).

(** *** Sample implementations of the fallback

    [strict_host] rejects every string outside the ECMAScript format.
    [local_midnight_host offset] reads year-month-day with unpadded fields,
    the year above 31, as midnight of that day in a zone [offset] minutes
    east of UTC, the way V8's legacy parser reads such strings. *)

Definition strict_host : string -> option Z := fun _ => None.

Fixpoint read_number (acc : option Z) (s : string) : option Z * string :=
  match s with
  | String c r =>
      if Char.is_digit c
      then read_number (Some (10 * default 0 acc + Num.digit_value c)) r
      else (acc, s)
  | "" => (acc, "")
  end.

Definition local_midnight_host (offsetMinutes : Z) (s : string) : option Z :=
  match read_number None s with
  | (Some y, String "-" r1) =>
      match read_number None r1 with
      | (Some m, String "-" r2) =>
          match read_number None r2 with
          | (Some d, "") =>
              if (31 <? y) && (1 <=? m) && (m <=? 12) && (1 <=? d) && (d <=? 31)
              then Some (JsDate.MakeDate (JsDate.MakeDay y (m - 1) d) 0
                         - offsetMinutes * 60000)
              else None
          | _ => None
          end
      | _ => None
      end
  | _ => None
  end.

(** A document whose paths are all valid, used in the examples. *)
Definition sample_event : EventDocument :=
  mkEvent 1%N (Some "My Event") None (Some "A day of talks") (Some "Talks and workshops")
    (Some "/images/event.png") (Some "Main Hall") (Some "Berlin")
    (Some "2025-01-05") (Some "09:05") (Some "offline") (Some "Developers")
    (Some [Some "Doors open"; Some "Keynote"]) (Some "Dev Events")
    (Some [Some "tech"; Some "meetup"]) ["title"; "description"].

Definition empty_db : Database := mkDatabase ∅ ∅.

(** The range test of the hook on the two numbers of a time. *)
Definition out_of_range (hours minutes : Z) : bool :=
  (hours <? 0) || (hours >? 23) || (minutes <? 0) || (minutes >? 59).

(** The time of the document is one the hook accepts. *)
Definition time_accepted (d : EventDocument) : bool :=
  match match_time (Str.trim (default "" (time d))) with
  | Some (g1, g2) => negb (out_of_range (Num.ofDigits g1) (Num.ofDigits g2))
  | None => false
  end.

(** The document a successful run leaves: date and time normalised, the
    slug by the rule of [next_slug], each of the three marked as modified
    if its value has changed, everything else as it was. *)
Definition normalized (newDate newTime : string) (d : EventDocument) : EventDocument :=
  mkEvent (_id d) (title d) (next_slug d) (description d) (overview d) (image d)
    (venue d) (location d) (Some newDate) (Some newTime) (mode d) (audience d)
    (agenda d) (organizer d) (tags d)
    (marked "slug" (slug d) (next_slug d)
       (marked "time" (time d) (Some newTime)
          (marked "date" (date d) (Some newDate) (modifiedPaths d)))).

Definition commit (d : EventDocument) (db : Database) : Database :=
  mkDatabase (<[_id d := clear_modified d]> (events db)) (bookings db).

(** The documents and stores of the examples: the Event titled 'My Event' as
    [new Event] builds it, the store and the document after it is saved,
    and the same after a new description is assigned and saved. *)
Definition created_event : EventDocument := construct sample_event.

Definition stored_event : EventDocument :=
  snd (fst (saveEvent strict_host empty_db created_event)).

Definition db_after_create : Database :=
  fst (fst (saveEvent strict_host empty_db created_event)).

Definition db_after_update : Database :=
  fst (fst (saveEvent strict_host db_after_create
              (assign_description "Now with workshops" stored_event))).

Definition updated_event : EventDocument :=
  snd (fst (saveEvent strict_host db_after_create
              (assign_description "Now with workshops" stored_event))).

(** ** Vocabulary of the further properties *)

Definition is_dash : ascii -> bool := Char.is_char "-".

(** A character a slug may hold: [a-z0-9] or the dash. *)
Definition slug_or_dash (c : ascii) : bool := Char.is_slug_char c || is_dash c.

(** Some code unit of [s] satisfies [q]. *)
Fixpoint some_char (q : ascii -> bool) (s : string) : bool :=
  match s with
  | "" => false
  | String c r => q c || some_char q r
  end.

Definition starts_with_dash (s : string) : bool :=
  match s with
  | String c _ => is_dash c
  | "" => false
  end.

Fixpoint ends_with_dash (s : string) : bool :=
  match s with
  | "" => false
  | String c "" => is_dash c
  | String _ r => ends_with_dash r
  end.

Fixpoint no_double_dash (s : string) : bool :=
  match s with
  | String a r =>
      negb (is_dash a && starts_with_dash r) && no_double_dash r
  | "" => true
  end.

(** The URL-safe form the data model asks of a slug: only [a-z0-9] and
    single dashes, none of them at either end. *)
Definition slug_form (s : string) : bool :=
  Str.every slug_or_dash s && negb (starts_with_dash s)
  && negb (ends_with_dash s) && no_double_dash s.

(** All required strings and both arrays of the document are valid. *)
Definition all_valid (d : EventDocument) : bool :=
  forallb (fun '(_, v) => nonblank v) (required_strings d)
  && array_valid (agenda d) && array_valid (tags d).

(** [d'] agrees with [d] on every path the hook has no assignment for, in
    value and in being modified or not. *)
Definition untouched (d d' : EventDocument) : Prop :=
  _id d' = _id d /\ title d' = title d /\ description d' = description d
  /\ overview d' = overview d /\ image d' = image d /\ venue d' = venue d
  /\ location d' = location d /\ mode d' = mode d /\ audience d' = audience d
  /\ agenda d' = agenda d /\ organizer d' = organizer d /\ tags d' = tags d
  /\ forall path, path <> "date" -> path <> "time" -> path <> "slug" ->
       isModified path d' = isModified path d.

(** What a failure of the hook tells about the document: the checks before
    the failing one have passed, and the failing one has not. *)
Definition explains (fb : string -> option Z) (d : EventDocument) (e : Error) : Prop :=
  match e with
  | MissingField f =>
      exists before v after,
        required_strings d = (before ++ (f, v) :: after)%list
        /\ forallb (fun '(_, w) => nonblank w) before = true
        /\ nonblank v = false
  | InvalidArrayField f =>
      forallb (fun '(_, w) => nonblank w) (required_strings d) = true
      /\ ((f = "agenda" /\ array_valid (agenda d) = false)
          \/ (f = "tags" /\ array_valid (agenda d) = true /\ array_valid (tags d) = false))
  | InvalidDate => all_valid d = true /\ date_parses fb d = false
  | InvalidTime why =>
      all_valid d = true /\ date_parses fb d = true /\ time_accepted d = false
      /\ (why = BadTimeFormat <->
          match_time (Str.trim (default "" (time d))) = None)
  | _ => False
  end.

(** The date-only form YYYY-MM-DD of the ECMAScript format. *)
Definition iso_date (y m d : Z) : string :=
  Num.fixed 4 y ++ "-" ++ Num.fixed 2 m ++ "-" ++ Num.fixed 2 d.

(** The character classes of [r] do not tell [f c] from [c]. *)
Fixpoint class_invariant (f : ascii -> ascii) (r : Regex.t) : Prop :=
  match r with
  | Regex.Class p => forall c, p (f c) = p c
  | Regex.Seq r1 r2 | Regex.Alt r1 r2 => class_invariant f r1 /\ class_invariant f r2
  | Regex.Star r1 => class_invariant f r1
  | _ => True
  end.


(** Every stored Booking names a stored Event. *)
Definition references_resolve (db : Database) : Prop :=
  forall i b,
    bookings db !! i = Some b ->
    exists ev, Booking.eventId b = Some ev /\ is_Some (events db !! ev).

(** The stores reached from the empty one by saving Events and Bookings, the
    hook of a Booking asking the store itself ([Event.exists]). *)
Inductive reachable : Database -> Prop :=
| reach_empty : reachable empty_db
| reach_event fb db doc db' doc' r :
    reachable db -> saveEvent fb db doc = (db', doc', r) -> reachable db'
| reach_booking db b db' asked r :
    reachable db -> saveBooking (Event_exists db) db b = (db', asked, r) -> reachable db'.

(** The store of the examples after a Booking for the stored Event is
    saved. *)
Definition db_after_booking : Database :=
  fst (fst (saveBooking (Event_exists db_after_update) db_after_update
              (Booking.construct 9%N (Some 1%N) (Some "  FOO@BAR.com ")))).

(** * Properties *)

(** ** Strings *)

Section StringFacts.

Variable p : ascii -> bool.

Lemma chop_while_empty (s : string) :
  Str.chop_while p s = "" <-> Str.every p s = true.
Proof.
  induction s as [|c r IH]; simpl; [tauto|].
  destruct (Str.chop_while p r) eqn:E.
  - destruct (p c); simpl; [tauto|].
    split; [discriminate|]. intros H; discriminate.
  - split; [discriminate|].
    intros H. apply andb_prop in H as [_ H]. apply IH in H. discriminate.
Qed.

(** Inside a run, [squeeze] drops the rest of the run and goes on afresh. *)
Lemma squeeze_in_run (s : string) :
  squeeze p true s = squeeze p false (Str.skip_while p s).
Proof.
  induction s as [|c r IH]; simpl; [reflexivity|].
  destruct (p c) eqn:E; [exact IH|].
  simpl. rewrite E. reflexivity.
Qed.

(** The greedy global replacement is the replacement of maximal runs. *)
Lemma replace_runs_squeeze (s : string) :
  replace_runs p "-" s = squeeze p false s.
Proof.
  funelim (replace_runs p "-" s); simp replace_runs; simpl.
  - reflexivity.
  - rewrite Heq; simpl.
    rewrite squeeze_in_run.
    match goal with IH : replace_runs _ _ _ = squeeze _ _ _ |- _ => rewrite IH end.
    reflexivity.
  - rewrite Heq; simpl.
    match goal with IH : replace_runs _ _ _ = squeeze _ _ _ |- _ => rewrite IH end.
    reflexivity.
Qed.

End StringFacts.

Lemma dashes_to_end_chop (s : string) :
  dashes_to_end s = true -> Str.chop_while (Char.is_char "-") s = "".
Proof.
  destruct s as [|c r]; [reflexivity|].
  unfold dashes_to_end. apply chop_while_empty.
Qed.

(** The scan for final dashes strips exactly the trailing dashes. *)
Lemma drop_final_dashes_chop (s : string) :
  drop_final_dashes s = Str.chop_while (Char.is_char "-") s.
Proof.
  induction s as [|c r IH]; [reflexivity|].
  cbn [drop_final_dashes].
  destruct (dashes_to_end (String c r)) eqn:E.
  - symmetry. apply dashes_to_end_chop, E.
  - cbn [Str.chop_while]. rewrite IH.
    destruct (Str.chop_while (Char.is_char "-") r) eqn:D; [|reflexivity].
    destruct (Char.is_char "-" c) eqn:C; [|reflexivity].
    exfalso. apply chop_while_empty in D.
    unfold dashes_to_end in E. simpl in E. rewrite C, D in E. discriminate.
Qed.

Lemma replace_edge_dashes_strip (s : string) :
  replace_edge_dashes s = strip_dashes s.
Proof. apply drop_final_dashes_chop. Qed.

(** A string that starts with a character other than white space is not
    blank. *)
Lemma blank_head (c : ascii) (r : string) :
  Char.is_space c = false -> blank (String c r) = false.
Proof.
  intros H. unfold blank, Str.trim. cbn [Str.skip_while]. rewrite H.
  cbn [Str.chop_while].
  destruct (Str.chop_while Char.is_space r); [rewrite H|]; reflexivity.
Qed.

(** ** The pattern matcher *)

Lemma append_empty_inv (a b : string) : a ++ b = "" -> a = "" /\ b = "".
Proof. destruct a; simpl; [auto|discriminate]. Qed.

Lemma append_cons_inv (a b s : string) (c : ascii) :
  a ++ b = String c s ->
  (a = "" /\ b = String c s) \/ (exists a', a = String c a' /\ s = a' ++ b).
Proof.
  destruct a as [|x a]; simpl; intros H; [left; auto|].
  injection H as -> <-. right. exists a. auto.
Qed.

Lemma nullable_lang (r : Regex.t) : Regex.nullable r = true <-> Regex.lang r "".
Proof.
  split.
  - induction r; simpl; intros H; try discriminate.
    + constructor.
    + apply andb_prop in H as [H1 H2].
      change "" with ("" ++ ""). constructor; auto.
    + apply orb_prop in H as [H|H]; [apply Regex.lang_alt_l|apply Regex.lang_alt_r]; auto.
    + constructor.
  - intros H. remember "" as s eqn:E. induction H; simpl; subst; try discriminate; auto.
    + apply append_empty_inv in E as [-> ->]. rewrite IHlang1, IHlang2; auto.
    + rewrite IHlang; auto.
    + rewrite IHlang; auto. apply orb_true_r.
Qed.

Lemma deriv_lang (c : ascii) (r : Regex.t) (s : string) :
  Regex.lang (Regex.deriv c r) s <-> Regex.lang r (String c s).
Proof.
  split.
  - revert s. induction r; simpl; intros s H.
    + inversion H.
    + inversion H.
    + destruct (p c) eqn:P; inversion H; subst. constructor. exact P.
    + destruct (Regex.nullable r1) eqn:N.
      * inversion H; subst.
        -- match goal with X : Regex.lang (Regex.Seq _ _) _ |- _ => inversion X; subst end.
           change (String c (s1 ++ s2)) with (String c s1 ++ s2). constructor; auto.
        -- change (String c s) with ("" ++ String c s). constructor; auto.
           apply nullable_lang. exact N.
      * inversion H; subst.
        change (String c (s1 ++ s2)) with (String c s1 ++ s2). constructor; auto.
    + inversion H; subst; [apply Regex.lang_alt_l|apply Regex.lang_alt_r]; auto.
    + inversion H; subst.
      change (String c (s1 ++ s2)) with (String c s1 ++ s2). constructor; auto.
  - intros H. remember (String c s) as w eqn:E. revert s E.
    induction H; intros w E; simpl.
    + discriminate.
    + injection E as -> <-. rewrite H. constructor.
    + apply append_cons_inv in E as [[-> ->]|(a' & -> & ->)].
      * apply nullable_lang in H. rewrite H. apply Regex.lang_alt_r. auto.
      * destruct (Regex.nullable r1); [apply Regex.lang_alt_l|]; constructor; auto.
    + apply Regex.lang_alt_l. auto.
    + apply Regex.lang_alt_r. auto.
    + discriminate.
    + apply append_cons_inv in E as [[-> ->]|(a' & -> & ->)].
      * apply IHlang2. reflexivity.
      * constructor; auto.
Qed.

(** [Regex.test] decides membership in the language of the pattern. *)
Lemma test_lang (r : Regex.t) (s : string) : Regex.test r s = true <-> Regex.lang r s.
Proof.
  revert r. induction s as [|c s IH]; intros r; simpl.
  - apply nullable_lang.
  - rewrite IH. apply deriv_lang.
Qed.

(** C8. [slugify] computes, for every string, what the specification's
    algorithm describes: lowercase, trim, every maximal run of characters
    outside a-z0-9 replaced by one dash, leading and trailing dashes
    stripped; and it maps 'Annual Tech Summit 2025!' to
    'annual-tech-summit-2025'. It is a total function, so it never fails. *)
Theorem C8_slugify_meets_its_description :
  (forall value : string, slugify value = slugify_spec value)
  /\ slugify "Annual Tech Summit 2025!" = "annual-tech-summit-2025".
Proof.
  split.
  - intros value. unfold slugify, slugify_spec.
    rewrite replace_runs_squeeze. apply replace_edge_dashes_strip.
  - vm_compute. reflexivity.
Qed.

(** ** Decimal digits *)

Lemma small_cases (P : Z -> Prop) (n : nat) :
  (forall k : nat, (k < n)%nat -> P (Z.of_nat k)) ->
  forall z, 0 <= z < Z.of_nat n -> P z.
Proof.
  intros H z Hz. rewrite <- (Z2Nat.id z) by lia. apply H. lia.
Qed.

Ltac by_cases_below n :=
  match goal with
  | |- forall z, 0 <= z < _ -> _ =>
      apply (small_cases _ n); intros k Hk;
      repeat (destruct k as [|k]; [vm_compute; reflexivity | try (exfalso; lia)])
  end.

Lemma digit_char_is_digit : forall k, 0 <= k < 10 -> Char.is_digit (Num.digit_char k) = true.
Proof. by_cases_below 10%nat. Qed.

Lemma digit_char_value : forall k, 0 <= k < 10 -> Num.digit_value (Num.digit_char k) = k.
Proof. by_cases_below 10%nat. Qed.

Lemma fixed_1 (n : Z) : Num.fixed 1 n = String (Num.digit_char (n mod 10)) "".
Proof. reflexivity. Qed.

Lemma fixed_2 (n : Z) :
  Num.fixed 2 n
  = String (Num.digit_char ((n / 10) mod 10)) (String (Num.digit_char (n mod 10)) "").
Proof. reflexivity. Qed.

Lemma length_append (a b : string) :
  String.length (a ++ b) = (String.length a + String.length b)%nat.
Proof. induction a as [|c a IH]; simpl; [reflexivity|]. rewrite IH. reflexivity. Qed.

Lemma append_assoc (a b c : string) : (a ++ b) ++ c = a ++ (b ++ c).
Proof. induction a as [|x a IH]; simpl; [reflexivity|]. rewrite IH. reflexivity. Qed.

(** [slice(0, n)] of a string that starts with [n] code units [a]. *)
Lemma slice0_prefix (a b : string) : Str.slice0 (String.length a) (a ++ b) = a.
Proof.
  unfold Str.slice0. induction a as [|c a IH]; simpl.
  - destruct b; reflexivity.
  - rewrite IH. reflexivity.
Qed.

Lemma fixed_length (w : nat) (n : Z) : String.length (Num.fixed w n) = w.
Proof.
  revert n. induction w as [|w IH]; intros n; simpl; [reflexivity|].
  rewrite length_append, IH. simpl. lia.
Qed.

Lemma fixed_digits (w : nat) (n : Z) : Str.every Char.is_digit (Num.fixed w n) = true.
Proof.
  revert n. induction w as [|w IH]; intros n; simpl; [reflexivity|].
  assert (E : forall a b, Str.every Char.is_digit a = true ->
                          Str.every Char.is_digit b = true ->
                          Str.every Char.is_digit (a ++ b) = true).
  { induction a as [|c a IHa]; simpl; intros b Ha Hb; [exact Hb|].
    apply andb_prop in Ha as [Hc Ha]. rewrite Hc. simpl. auto. }
  apply E; [apply IH|]. simpl.
  rewrite digit_char_is_digit; [reflexivity|]. apply Z.mod_pos_bound. lia.
Qed.

Lemma pad2_fixed : forall n, 0 <= n < 100 -> pad2 n = Num.fixed 2 n.
Proof. by_cases_below 100%nat. Qed.

Lemma ofDigits_fixed_2 : forall n, 0 <= n < 100 -> Num.ofDigits (Num.fixed 2 n) = n.
Proof. by_cases_below 100%nat. Qed.

Lemma ofDigits_fixed_1 : forall n, 0 <= n < 10 -> Num.ofDigits (Num.fixed 1 n) = n.
Proof. by_cases_below 10%nat. Qed.

Lemma is_colon : Char.is_char ":" ":" = true.
Proof. reflexivity. Qed.

Lemma match_time_HHMM (h m : Z) :
  match_time (Num.fixed 2 h ++ ":" ++ Num.fixed 2 m)
  = Some (Num.fixed 2 h, Num.fixed 2 m).
Proof.
  rewrite !fixed_2. cbn [append match_time].
  rewrite !digit_char_is_digit by (apply Z.mod_pos_bound; lia).
  rewrite is_colon. reflexivity.
Qed.

Lemma match_time_HMM (h m : Z) :
  match_time (Num.fixed 1 h ++ ":" ++ Num.fixed 2 m)
  = Some (Num.fixed 1 h, Num.fixed 2 m).
Proof.
  rewrite fixed_1, fixed_2. cbn [append match_time].
  rewrite !digit_char_is_digit by (apply Z.mod_pos_bound; lia).
  rewrite is_colon. reflexivity.
Qed.

(** The direct reading of the groups agrees with the pattern. *)
Lemma match_time_pattern (s : string) :
  Regex.test timePattern s = true <-> match_time s <> None.
Proof.
  unfold timePattern, digit, Regex.OneOrTwo, Regex.Twice, Regex.Opt, Regex.Lit.
  destruct s as [|a [|b [|c [|d [|e [|f s]]]]]]; cbn;
    repeat match goal with
      | |- context [Char.is_digit ?x] => destruct (Char.is_digit x) eqn:?; cbn
      | |- context [Char.is_char ?x ?y] => destruct (Char.is_char x y) eqn:?; cbn
      end; try (split; [discriminate|congruence]); try (split; congruence).
  all: try (split; [intros _; discriminate | reflexivity]).
  all: try (induction s; cbn; auto).
  all: split; [discriminate | intros H; exfalso; apply H; reflexivity].
Qed.

(** ** The calendar

    [YearFromTime] is the year ECMAScript defines (the largest year that
    starts no later than the day), months and days of the month stay within
    the calendar, and the fields of a calendar date are found again in the
    time value [MakeDay] and [MakeDate] build from them. *)

Lemma YearFromTime_spec (t : Z) :
  JsDate.DayFromYear (JsDate.YearFromTime t) <= JsDate.Day t
  < JsDate.DayFromYear (JsDate.YearFromTime t + 1).
Proof.
  unfold JsDate.YearFromTime. generalize (JsDate.Day t). intros d. cbv zeta.
  destruct (d <? JsDate.DayFromYear (1970 + 400 * d / 146097)) eqn:A.
  - apply Z.ltb_lt in A. unfold JsDate.DayFromYear in *.
    Z.div_mod_to_equations. lia.
  - apply Z.ltb_ge in A.
    destruct (JsDate.DayFromYear (1970 + 400 * d / 146097 + 1) <=? d) eqn:B.
    + apply Z.leb_le in B. unfold JsDate.DayFromYear in *.
      Z.div_mod_to_equations. lia.
    + apply Z.leb_gt in B. lia.
Qed.

Lemma DayFromYear_succ (y : Z) :
  JsDate.DayFromYear (y + 1) = JsDate.DayFromYear y + JsDate.DaysInYear y.
Proof.
  unfold JsDate.DayFromYear, JsDate.DaysInYear, JsDate.isLeap.
  destruct (y mod 4 =? 0) eqn:A; destruct (y mod 100 =? 0) eqn:B;
    destruct (y mod 400 =? 0) eqn:C; cbn [andb orb negb];
    rewrite ?Z.eqb_eq, ?Z.eqb_neq in *; Z.div_mod_to_equations; lia.
Qed.

Lemma DayWithinYear_range (t : Z) :
  0 <= JsDate.DayWithinYear t < 365 + JsDate.InLeapYear t.
Proof.
  pose proof (YearFromTime_spec t) as H. rewrite DayFromYear_succ in H.
  unfold JsDate.DayWithinYear, JsDate.InLeapYear, JsDate.DaysInYear in *.
  destruct (JsDate.isLeap (JsDate.YearFromTime t)); lia.
Qed.

Lemma calendar_ranges (t : Z) :
  0 <= JsDate.MonthFromTime t <= 11 /\ 1 <= JsDate.DateFromTime t <= 31.
Proof.
  pose proof (DayWithinYear_range t) as H.
  unfold JsDate.DateFromTime, JsDate.MonthFromTime.
  assert (L : JsDate.InLeapYear t = 0 \/ JsDate.InLeapYear t = 1)
    by (unfold JsDate.InLeapYear; destruct (JsDate.isLeap _); auto).
  generalize dependent (JsDate.DayWithinYear t). generalize dependent (JsDate.InLeapYear t).
  intros l L d H. cbv zeta.
  repeat match goal with
    | |- context [?a <? ?b] => destruct (Z.ltb_spec a b)
    end; cbn; lia.
Qed.

Lemma YearFromTime_unique (t y : Z) :
  JsDate.DayFromYear y <= JsDate.Day t < JsDate.DayFromYear (y + 1) ->
  JsDate.YearFromTime t = y.
Proof.
  intros H. pose proof (YearFromTime_spec t) as S.
  generalize dependent (JsDate.YearFromTime t). intros y' S.
  generalize dependent (JsDate.Day t). intros D H S.
  unfold JsDate.DayFromYear in *. Z.div_mod_to_equations. lia.
Qed.

Ltac month_literal :=
  repeat match goal with
    | |- context [Z.pos ?p - 1] =>
        let v := eval vm_compute in (Z.pos p - 1) in change (Z.pos p - 1) with v
    | H : context [Z.pos ?p - 1] |- _ =>
        let v := eval vm_compute in (Z.pos p - 1) in change (Z.pos p - 1) with v in H
    end.

Lemma MakeDay_roundtrip (y m d : Z) :
  JsDate.in_calendar y m d = true ->
  let t := JsDate.MakeDate (JsDate.MakeDay y (m - 1) d) 0 in
  JsDate.YearFromTime t = y /\ JsDate.MonthFromTime t = m - 1 /\ JsDate.DateFromTime t = d.
Proof.
  unfold JsDate.in_calendar. intros H.
  apply andb_prop in H as [H H4]. apply andb_prop in H as [H H3].
  apply andb_prop in H as [H1 H2].
  apply Z.leb_le in H1, H2, H3, H4. cbv zeta.
  assert (M : m = 1 \/ m = 2 \/ m = 3 \/ m = 4 \/ m = 5 \/ m = 6 \/ m = 7 \/ m = 8
              \/ m = 9 \/ m = 10 \/ m = 11 \/ m = 12) by lia.
  clear H1 H2.
  remember (if JsDate.isLeap y then 1 else 0) as l eqn:El.
  assert (L : l = 0 \/ l = 1) by (rewrite El; destruct (JsDate.isLeap y); auto).
  assert (H4' : d <= JsDate.daysBeforeMonth l m - JsDate.daysBeforeMonth l (m - 1)
                \/ (m = 12 /\ d <= 31)).
  { unfold JsDate.daysInMonth in H4.
    destruct M as [->|[->|[->|[->|[->|[->|[->|[->|[->|[->|[->| ->]]]]]]]]]]];
      month_literal; cbn [JsDate.daysBeforeMonth]; try (left; lia); try (right; lia).
    left. destruct (JsDate.isLeap y); subst l; lia. }
  clear H4.
  assert (Dd : JsDate.Day (JsDate.MakeDate (JsDate.MakeDay y (m - 1) d) 0)
               = JsDate.DayFromYear y + JsDate.daysBeforeMonth l (m - 1) + d - 1).
  { unfold JsDate.Day, JsDate.MakeDate, JsDate.MakeDay, JsDate.msPerDay.
    replace ((m - 1) / 12) with 0 by (Z.div_mod_to_equations; lia).
    replace ((m - 1) mod 12) with (m - 1) by (Z.div_mod_to_equations; lia).
    rewrite !Z.add_0_r, <- El. apply Z.div_mul. lia. }
  assert (Y : JsDate.YearFromTime (JsDate.MakeDate (JsDate.MakeDay y (m - 1) d) 0) = y).
  { apply YearFromTime_unique. rewrite Dd, DayFromYear_succ.
    unfold JsDate.DaysInYear. rewrite El in *. clear El.
    destruct M as [->|[->|[->|[->|[->|[->|[->|[->|[->|[->|[->| ->]]]]]]]]]]];
      month_literal; cbn [JsDate.daysBeforeMonth] in *;
      destruct (JsDate.isLeap y); lia. }
  split; [exact Y|].
  unfold JsDate.DateFromTime, JsDate.MonthFromTime, JsDate.DayWithinYear, JsDate.InLeapYear.
  rewrite Y, Dd, <- El. cbv zeta. clear El Dd Y.
  destruct M as [->|[->|[->|[->|[->|[->|[->|[->|[->|[->|[->| ->]]]]]]]]]]];
    month_literal; cbn [JsDate.daysBeforeMonth] in *;
    destruct L as [-> | ->];
    repeat match goal with
      | |- context [?a <? ?b] => destruct (Z.ltb_spec a b); try lia
      end; split; lia.
Qed.

(** ** The Event hook, case by case *)

Lemma validateStrings_eq (d : EventDocument) :
  validateStrings d = (d, first_failure (required_strings d)).
Proof.
  unfold validateStrings, required_strings, first_failure.
  unfold mbind, Hook_bind, this, call.
  repeat match goal with
    | |- context [assertNonEmptyString ?v ?n] =>
        destruct (assertNonEmptyString v n) as [?|[]]
    end; reflexivity.
Qed.

Lemma validateArrays_eq (d : EventDocument) :
  validateArrays d =
  (d, match assertNonEmptyStringArray (agenda d) "agenda" with
      | inl e => inl e
      | inr _ => assertNonEmptyStringArray (tags d) "tags"
      end).
Proof.
  unfold validateArrays, mbind, Hook_bind, this, call.
  destruct (assertNonEmptyStringArray (agenda d) "agenda") as [?|[]]; reflexivity.
Qed.

(** An assignment to one path leaves the other paths modified or not as
    they were. *)
Lemma existsb_marked (p path : string) (old new : option string) (paths : list string) :
  String.eqb p path = false ->
  existsb (String.eqb p) (marked path old new paths) = existsb (String.eqb p) paths.
Proof.
  intros N. unfold marked, mark_modified.
  destruct (bool_decide (old = new)); [reflexivity|].
  destruct (existsb (String.eqb path) paths); [reflexivity|].
  cbn [existsb]. rewrite N. reflexivity.
Qed.

Lemma marked_same (path : string) (v : option string) (paths : list string) :
  marked path v v paths = paths.
Proof. unfold marked. rewrite bool_decide_eq_true_2 by reflexivity. reflexivity. Qed.

(** What the hook does, as one case analysis on the document it is given. *)
Lemma preSave_cases (fb : string -> option Z) (d : EventDocument) :
  preSave fb d =
  match first_failure (required_strings d) with
  | inl e => (d, inl e)
  | inr _ =>
  match assertNonEmptyStringArray (agenda d) "agenda" with
  | inl e => (d, inl e)
  | inr _ =>
  match assertNonEmptyStringArray (tags d) "tags" with
  | inl e => (d, inl e)
  | inr _ =>
  match JsDate.parse fb (default "" (date d)) with
  | None => (d, inl InvalidDate)
  | Some t =>
      let d1 := assign_date (Str.slice0 10 (JsDate.toISOString t)) d in
      match match_time (Str.trim (default "" (time d))) with
      | None => (d1, inl (InvalidTime BadTimeFormat))
      | Some (g1, g2) =>
          if out_of_range (Num.ofDigits g1) (Num.ofDigits g2)
          then (d1, inl (InvalidTime TimeOutOfRange))
          else
            let d2 := assign_time (pad2 (Num.ofDigits g1) ++ ":" ++ pad2 (Num.ofDigits g2)) d1 in
            (if isModified "title" d || falsy (slug d)
             then assign_slug (slugify (default "" (title d))) d2
             else d2, inr tt)
      end
  end end end end.
Proof.
  unfold preSave. unfold mbind at 1 2 3 4. unfold Hook_bind at 1 2 3 4.
  rewrite validateStrings_eq.
  destruct (first_failure (required_strings d)) as [e|[]]; [reflexivity|].
  rewrite validateArrays_eq.
  destruct (assertNonEmptyStringArray (agenda d) "agenda") as [e|[]]; [reflexivity|].
  destruct (assertNonEmptyStringArray (tags d) "tags") as [e|[]]; [reflexivity|].
  unfold normalizeDate, mbind, Hook_bind, this, throw, assign.
  destruct (JsDate.parse fb (default "" (date d))) as [t|]; [|reflexivity].
  unfold normalizeTime, mbind, Hook_bind, this, throw, assign. cbn [time assign_date].
  destruct (match_time (Str.trim (default "" (time d)))) as [[g1 g2]|]; [|reflexivity].
  fold (out_of_range (Num.ofDigits g1) (Num.ofDigits g2)).
  destruct (out_of_range (Num.ofDigits g1) (Num.ofDigits g2)); [reflexivity|].
  unfold updateSlug, mbind, Hook_bind, this, assign, mret, Hook_ret.
  unfold isModified. cbn [modifiedPaths slug title assign_time assign_date].
  rewrite !existsb_marked by reflexivity.
  destruct (existsb (String.eqb "title") (modifiedPaths d) || falsy (slug d)); reflexivity.
Qed.

(** The hook never touches a path other than date, time and slug. *)
Lemma first_failure_ok (l : list (string * option string)) :
  forallb (fun '(_, v) => nonblank v) l = true -> first_failure l = inr tt.
Proof.
  induction l as [|[n v] l IH]; simpl; [reflexivity|].
  intros H. apply andb_prop in H as [Hv Hl].
  unfold assertNonEmptyString, nonblank, not_nonblank_string in *.
  destruct v as [s|]; [|discriminate].
  destruct (blank s); [discriminate|]. auto.
Qed.

Lemma array_valid_ok (v : option (list (option string))) (n : string) :
  array_valid v = true -> assertNonEmptyStringArray v n = inr tt.
Proof.
  unfold array_valid, assertNonEmptyStringArray.
  destruct v as [l|]; [|discriminate].
  intros H. apply andb_prop in H as [Hn Hl].
  destruct (List.length l =? 0)%nat; [discriminate|]. simpl.
  replace (existsb not_nonblank_string l) with false; [reflexivity|].
  symmetry. clear Hn. induction l as [|x l IH]; simpl in *; [reflexivity|].
  apply andb_prop in Hl as [Hx Hl]. unfold nonblank in Hx.
  destruct (not_nonblank_string x); [discriminate|]. simpl. auto.
Qed.

(** A document that is valid except perhaps at [skip], and valid there too,
    passes both groups of assertions. *)
Lemma valid_except_ok (skip : string) (d : EventDocument) :
  valid_except skip d = true ->
  forallb (fun '(n, v) => negb (String.eqb n skip) || nonblank v) (required_strings d) = true ->
  first_failure (required_strings d) = inr tt
  /\ assertNonEmptyStringArray (agenda d) "agenda" = inr tt
  /\ assertNonEmptyStringArray (tags d) "tags" = inr tt.
Proof.
  unfold valid_except. intros H Hs.
  apply andb_prop in H as [H Ht]. apply andb_prop in H as [H Ha].
  split; [|split; apply array_valid_ok; assumption].
  apply first_failure_ok.
  revert H Hs. generalize (required_strings d). intros l.
  induction l as [|[n v] l IH]; simpl; [reflexivity|].
  intros H Hs. apply andb_prop in H as [H1 H2]. apply andb_prop in Hs as [Hs1 Hs2].
  rewrite IH by assumption.
  destruct (String.eqb n skip); simpl in *; [rewrite Hs1|rewrite H1]; reflexivity.
Qed.

Lemma normalized_eq (nd nt : string) (d : EventDocument) :
  (if isModified "title" d || falsy (slug d)
   then assign_slug (slugify (default "" (title d))) (assign_time nt (assign_date nd d))
   else assign_time nt (assign_date nd d)) = normalized nd nt d.
Proof.
  unfold normalized, next_slug.
  destruct (isModified "title" d || falsy (slug d)); [reflexivity|].
  rewrite marked_same. reflexivity.
Qed.

(** Saving a document whose other paths are valid, by the time it
    carries. *)
Lemma saveEvent_by_time (fb : string -> option Z) (db : Database)
    (d : EventDocument) (raw : string) :
  valid_except "time" d = true -> date_parses fb d = true -> blank raw = false ->
  exists t, JsDate.parse fb (default "" (date d)) = Some t /\
  let nd := Str.slice0 10 (JsDate.toISOString t) in
  saveEvent fb db (set_time raw d) =
  match match_time (Str.trim raw) with
  | None => (db, assign_date nd (set_time raw d), inl (InvalidTime BadTimeFormat))
  | Some (g1, g2) =>
      if out_of_range (Num.ofDigits g1) (Num.ofDigits g2)
      then (db, assign_date nd (set_time raw d), inl (InvalidTime TimeOutOfRange))
      else
        let d' := normalized nd (pad2 (Num.ofDigits g1) ++ ":" ++ pad2 (Num.ofDigits g2))
                    (set_time raw d) in
        if slug_taken db (_id d) (next_slug d)
        then (db, d', inl DuplicateKey)
        else (commit d' db, clear_modified d', inr tt)
  end.
Proof.
  intros Hv Hd Hb. unfold date_parses in Hd.
  destruct (JsDate.parse fb (default "" (date d))) as [t|] eqn:Hp; [|discriminate].
  exists t. split; [reflexivity|]. cbv zeta.
  destruct (valid_except_ok "time" (set_time raw d)) as (H1 & H2 & H3).
  { exact Hv. }
  { unfold valid_except in Hv. apply andb_prop in Hv as [Hv _]. apply andb_prop in Hv as [Hv _].
    unfold required_strings in *. cbn [set_time title description overview image venue
      location date time mode audience organizer forallb] in *.
    unfold nonblank at 8. unfold not_nonblank_string. rewrite Hb.
    repeat match goal with
      | H : _ && _ = true |- _ => apply andb_prop in H as [? H]
      end.
    repeat match goal with
      | H : (?a =? "time")%string || ?b = true |- _ =>
          change (a =? "time")%string with false in H; cbn [orb] in H; rewrite H; clear H
      end.
    reflexivity. }
  unfold saveEvent. rewrite preSave_cases, H1, H2, H3.
  cbn [date time set_time default from_option id]. rewrite Hp. cbv zeta.
  destruct (match_time (Str.trim raw)) as [[g1 g2]|]; [|reflexivity].
  destruct (out_of_range (Num.ofDigits g1) (Num.ofDigits g2)); [reflexivity|].
  rewrite normalized_eq. reflexivity.
Qed.

Lemma commit_lookup (d : EventDocument) (db : Database) :
  events (commit d db) !! _id d = Some (clear_modified d).
Proof. unfold commit. cbn [events]. apply lookup_insert_eq. Qed.

(** ** Times (C1, C10) *)

(** C1, as the code has it. For an Event write whose other fields are valid
    (and whose slug no other Event holds), the time '9:05' leads to a commit
    that stores '09:05'; the time '9:5', whose minute has one digit, is
    rejected with InvalidTime, and so is '24:00'. *)
Theorem C1_time_examples (fb : string -> option Z) (db : Database) (d : EventDocument) :
  valid_except "time" d = true ->
  date_parses fb d = true ->
  slug_taken db (_id d) (next_slug d) = false ->
  (exists db' d',
      saveEvent fb db (set_time "9:05" d) = (db', d', inr tt)
      /\ time d' = Some "09:05"
      /\ events db' !! _id d = Some d')
  /\ (exists d', saveEvent fb db (set_time "9:5" d) = (db, d', inl (InvalidTime BadTimeFormat)))
  /\ (exists d', saveEvent fb db (set_time "24:00" d) = (db, d', inl (InvalidTime TimeOutOfRange))).
Proof.
  intros Hv Hd Hs. repeat split.
  - destruct (saveEvent_by_time fb db d "9:05" Hv Hd eq_refl) as (t & _ & E).
    cbv zeta in E. change (match_time (Str.trim "9:05")) with (Some ("9", "05")) in E.
    change (out_of_range (Num.ofDigits "9") (Num.ofDigits "05")) with false in E.
    cbv iota in E. rewrite Hs in E. rewrite E.
    eexists _, _. split; [reflexivity|]. split; [reflexivity|].
    apply (commit_lookup (normalized _ _ d)).
  - destruct (saveEvent_by_time fb db d "9:5" Hv Hd eq_refl) as (t & _ & E).
    cbv zeta in E. change (match_time (Str.trim "9:5")) with (@None (string * string)) in E.
    eexists. exact E.
  - destruct (saveEvent_by_time fb db d "24:00" Hv Hd eq_refl) as (t & _ & E).
    cbv zeta in E. change (match_time (Str.trim "24:00")) with (Some ("24", "00")) in E.
    change (out_of_range (Num.ofDigits "24") (Num.ofDigits "00")) with true in E.
    eexists. exact E.
Qed.

Lemma C1_time_examples_witness :
  (exists db' d',
      saveEvent strict_host empty_db (set_time "9:05" sample_event) = (db', d', inr tt)
      /\ time d' = Some "09:05"
      /\ events db' !! _id sample_event = Some d')
  /\ (exists d', saveEvent strict_host empty_db (set_time "9:5" sample_event)
                 = (empty_db, d', inl (InvalidTime BadTimeFormat)))
  /\ (exists d', saveEvent strict_host empty_db (set_time "24:00" sample_event)
                 = (empty_db, d', inl (InvalidTime TimeOutOfRange))).
Proof.
  apply (C1_time_examples strict_host empty_db sample_event); vm_compute; reflexivity.
Defined.

(** C1 as stated fails: with every other field valid, the time '9:5' does
    not lead to a commit that stores '09:05'; the hook throws, and nothing
    is stored. *)
Lemma C1_one_digit_minute_is_rejected :
  valid_except "time" sample_event = true
  /\ date_parses strict_host sample_event = true
  /\ saveEvent strict_host empty_db (set_time "9:5" sample_event)
     = (empty_db, set_time "9:5" sample_event, inl (InvalidTime BadTimeFormat)).
Proof. vm_compute. repeat split; reflexivity. Qed.

(** C10. A time that, once trimmed, writes an hour 0..23 and a minute 0..59
    as H:MM or HH:MM is accepted, whatever white space surrounds it, and
    what is stored is the zero-padded HH:MM, which has the stored format. *)
Theorem C10_time_is_trimmed_before_the_match
    (fb : string -> option Z) (db : Database) (d : EventDocument) (raw : string) (h m : Z) :
  valid_except "time" d = true ->
  date_parses fb d = true ->
  slug_taken db (_id d) (next_slug d) = false ->
  0 <= h <= 23 -> 0 <= m <= 59 ->
  clock_form h m (Str.trim raw) ->
  exists db' d',
    saveEvent fb db (set_time raw d) = (db', d', inr tt)
    /\ time d' = Some (Num.fixed 2 h ++ ":" ++ Num.fixed 2 m)
    /\ events db' !! _id d = Some d'
    /\ Regex.test storedTimePattern (Num.fixed 2 h ++ ":" ++ Num.fixed 2 m) = true.
Proof.
  intros Hv Hd Hs Hh Hm Hc.
  assert (Hb : blank raw = false).
  { unfold blank. destruct Hc as [E|[_ E]]; rewrite E; [rewrite fixed_2|rewrite fixed_1];
      reflexivity. }
  destruct (saveEvent_by_time fb db d raw Hv Hd Hb) as (t & _ & E). cbv zeta in E.
  assert (G : exists g1, match_time (Str.trim raw) = Some (g1, Num.fixed 2 m)
                         /\ Num.ofDigits g1 = h).
  { destruct Hc as [Ec|[H9 Ec]]; rewrite Ec.
    - exists (Num.fixed 2 h). split; [apply match_time_HHMM|].
      apply ofDigits_fixed_2. lia.
    - exists (Num.fixed 1 h). split; [apply match_time_HMM|].
      apply ofDigits_fixed_1. lia. }
  destruct G as (g1 & G1 & G2). rewrite G1, G2 in E.
  rewrite (ofDigits_fixed_2 m) in E by lia.
  replace (out_of_range h m) with false in E
    by (unfold out_of_range; symmetry; repeat (apply orb_false_intro); lia).
  rewrite Hs in E. rewrite !pad2_fixed in E by lia.
  rewrite E. eexists _, _. split; [reflexivity|]. split; [reflexivity|].
  split; [apply (commit_lookup (normalized _ _ d))|].
  rewrite !fixed_2.
  unfold storedTimePattern, digit, Regex.Twice, Regex.Lit.
  repeat first [ rewrite digit_char_is_digit by (apply Z.mod_pos_bound; lia)
               | progress cbn ].
  reflexivity.
Qed.

Lemma C10_time_is_trimmed_witness :
  exists db' d',
    saveEvent strict_host empty_db (set_time " 9:05 " sample_event) = (db', d', inr tt)
    /\ time d' = Some "09:05"
    /\ events db' !! _id sample_event = Some d'
    /\ Regex.test storedTimePattern "09:05" = true.
Proof.
  apply (C10_time_is_trimmed_before_the_match
           strict_host empty_db sample_event " 9:05 " 9 5);
    try (vm_compute; reflexivity); try lia.
  right. split; [lia|]. vm_compute. reflexivity.
Defined.

(** ** Failed writes (C2) *)



Lemma isModified_assign_date (v path : string) (d : EventDocument) :
  path <> "date" -> isModified path (assign_date v d) = isModified path d.
Proof.
  intros N. unfold isModified. cbn [assign_date modifiedPaths].
  apply existsb_marked, String.eqb_neq, N.
Qed.




(** ** Successful writes *)

Lemma is_digit_value (c : ascii) : Char.is_digit c = true -> 0 <= Num.digit_value c <= 9.
Proof.
  unfold Char.is_digit, Char.between, Num.digit_value. intros H.
  apply andb_prop in H as [H1 H2]. lia.
Qed.

(** The groups of a match are digits: the numbers are not negative, and
    below one hundred. *)
Lemma match_time_groups (s g1 g2 : string) :
  match_time s = Some (g1, g2) ->
  0 <= Num.ofDigits g1 < 100 /\ 0 <= Num.ofDigits g2 < 100.
Proof.
  unfold match_time.
  destruct s as [|a [|b [|c [|d [|e [|f s]]]]]]; try discriminate.
  - destruct (Char.is_digit a) eqn:Ha; [|discriminate].
    destruct (Char.is_char ":" b); [|discriminate].
    destruct (Char.is_digit c) eqn:Hc; [|discriminate].
    destruct (Char.is_digit d) eqn:Hd; [|discriminate].
    cbn. intros H. injection H as <- <-.
    apply is_digit_value in Ha, Hc, Hd. unfold Num.ofDigits. cbn. lia.
  - destruct (Char.is_digit a) eqn:Ha; [|discriminate].
    destruct (Char.is_digit b) eqn:Hb; [|discriminate].
    destruct (Char.is_char ":" c); [|discriminate].
    destruct (Char.is_digit d) eqn:Hd; [|discriminate].
    destruct (Char.is_digit e) eqn:He; [|discriminate].
    cbn. intros H. injection H as <- <-.
    apply is_digit_value in Ha, Hb, Hd, He. unfold Num.ofDigits. cbn. lia.
Qed.

(** What a completed run of the hook implies: it found a date it could
    parse and a time within range, and it leaves the document with the
    first ten characters of the ISO form of the parsed instant as date, the
    zero-padded HH:MM as time, and the slug the rule of [next_slug] gives. *)
Lemma preSave_ok_inv (fb : string -> option Z) (d d' : EventDocument) :
  preSave fb d = (d', inr tt) ->
  exists t h m,
    JsDate.parse fb (default "" (date d)) = Some t
    /\ 0 <= h <= 23 /\ 0 <= m <= 59
    /\ d' = normalized (Str.slice0 10 (JsDate.toISOString t))
                       (Num.fixed 2 h ++ ":" ++ Num.fixed 2 m) d
    /\ first_failure (required_strings d) = inr tt.
Proof.
  rewrite preSave_cases.
  destruct (first_failure (required_strings d)) as [e0|[]]; [discriminate|].
  destruct (assertNonEmptyStringArray (agenda d) "agenda") as [e0|[]]; [discriminate|].
  destruct (assertNonEmptyStringArray (tags d) "tags") as [e0|[]]; [discriminate|].
  destruct (JsDate.parse fb (default "" (date d))) as [t|]; [|discriminate].
  cbv zeta.
  destruct (match_time (Str.trim (default "" (time d)))) as [[g1 g2]|] eqn:M; [|discriminate].
  destruct (out_of_range (Num.ofDigits g1) (Num.ofDigits g2)) eqn:R; [discriminate|].
  rewrite normalized_eq.
  intros H. injection H as <-.
  apply match_time_groups in M as [M1 M2].
  unfold out_of_range in R.
  apply orb_false_elim in R as [R R4]. apply orb_false_elim in R as [R R3].
  apply orb_false_elim in R as [R1 R2].
  exists t, (Num.ofDigits g1), (Num.ofDigits g2).
  rewrite !pad2_fixed by lia.
  repeat split; try reflexivity; lia.
Qed.

(** What a commit of an Event implies: the hook completed, and the document
    stored is the one the caller keeps. *)
Lemma saveEvent_commit_inv (fb : string -> option Z) (db db' : Database)
    (d d' : EventDocument) :
  saveEvent fb db d = (db', d', inr tt) ->
  exists t h m,
    JsDate.parse fb (default "" (date d)) = Some t
    /\ 0 <= h <= 23 /\ 0 <= m <= 59
    /\ d' = clear_modified
              (normalized (Str.slice0 10 (JsDate.toISOString t))
                          (Num.fixed 2 h ++ ":" ++ Num.fixed 2 m) d)
    /\ db' = commit (normalized (Str.slice0 10 (JsDate.toISOString t))
                                (Num.fixed 2 h ++ ":" ++ Num.fixed 2 m) d) db
    /\ first_failure (required_strings d) = inr tt.
Proof.
  unfold saveEvent.
  destruct (preSave fb d) as [d1 [e|[]]] eqn:P; [discriminate|].
  apply preSave_ok_inv in P as (t & h & m & Hp & Hh & Hm & -> & F).
  destruct (slug_taken _ _ _); [discriminate|].
  intros H. injection H as <- <-.
  exists t, h, m. repeat split; try assumption; try reflexivity; lia.
Qed.

Lemma title_present (d : EventDocument) :
  first_failure (required_strings d) = inr tt ->
  exists s, title d = Some s /\ blank s = false.
Proof.
  unfold required_strings. cbn [first_failure]. unfold assertNonEmptyString at 1.
  destruct (title d) as [s|]; [|discriminate].
  destruct (blank s) eqn:B; [discriminate|]. intros _. exists s. split; [reflexivity|exact B].
Qed.

(** ** The slug (C4) *)

(** C4. Whenever the hook completes, the slug it leaves is [slugify title]
    if the title was modified in the write or the document had no slug
    (none, or the empty one), and the slug the document had otherwise; that
    slug is the one stored when the write commits. *)
Theorem C4_slug_follows_the_title_only_when_it_changed
    (fb : string -> option Z) (d d' : EventDocument) :
  preSave fb d = (d', inr tt) ->
  exists ttl,
    title d = Some ttl
    /\ slug d' = (if isModified "title" d || falsy (slug d)
                  then Some (slugify ttl)
                  else slug d)
    /\ forall db db' stored,
         saveEvent fb db d = (db', stored, inr tt) ->
         slug stored = slug d' /\ events db' !! _id d = Some stored.
Proof.
  intros H. pose proof H as P.
  apply preSave_ok_inv in H as (t & h & m & _ & _ & _ & -> & F).
  apply title_present in F as (ttl & T & _). exists ttl.
  split; [exact T|]. split.
  - cbn [slug normalized]. unfold next_slug. rewrite T. reflexivity.
  - intros db db' stored S. unfold saveEvent in S. rewrite P in S.
    destruct (slug_taken _ _ _); [discriminate|].
    injection S as <- <-. split; [reflexivity|].
    apply (commit_lookup (normalized _ _ d)).
Qed.

(** The two examples of C4: creating the Event titled 'My Event' without a
    slug stores the slug 'my-event'; assigning only a new description to the
    stored document and saving again leaves that slug. *)
Lemma C4_slug_examples :
  (title created_event = Some "My Event" /\ slug created_event = None
   /\ slug stored_event = Some "my-event"
   /\ events db_after_create !! 1%N = Some stored_event)
  /\ (isModified "title" (assign_description "Now with workshops" stored_event) = false
      /\ description updated_event = Some "Now with workshops"
      /\ slug updated_event = Some "my-event"
      /\ events db_after_update !! 1%N = Some updated_event).
Proof.
  split.
  - split; [reflexivity|]. split; [reflexivity|].
    destruct (C4_slug_follows_the_title_only_when_it_changed
                strict_host created_event (fst (preSave strict_host created_event)))
      as (ttl & T & S & C); [vm_compute; reflexivity|].
    destruct (C empty_db db_after_create stored_event) as [E L];
      [vm_compute; reflexivity|].
    split; [|exact L].
    rewrite E, S. vm_compute in T. injection T as <-. vm_compute. reflexivity.
  - split; [vm_compute; reflexivity|]. split; [vm_compute; reflexivity|].
    destruct (C4_slug_follows_the_title_only_when_it_changed
                strict_host (assign_description "Now with workshops" stored_event)
                (fst (preSave strict_host
                        (assign_description "Now with workshops" stored_event))))
      as (ttl & T & S & C); [vm_compute; reflexivity|].
    destruct (C db_after_create db_after_update updated_event) as [E L];
      [vm_compute; reflexivity|].
    split; [|exact L].
    rewrite E, S. vm_compute. reflexivity.
Defined.

(** ** Dates (C3, C7) *)

Lemma fixed_4 (n : Z) :
  Num.fixed 4 n
  = String (Num.digit_char (((n / 10) / 10 / 10) mod 10))
      (String (Num.digit_char (((n / 10) / 10) mod 10))
         (String (Num.digit_char ((n / 10) mod 10))
            (String (Num.digit_char (n mod 10)) ""))).
Proof. reflexivity. Qed.

Lemma utc_day_format (t : Z) : Regex.test storedDatePattern (utc_day t) = true.
Proof.
  unfold utc_day. rewrite fixed_4, !fixed_2.
  unfold storedDatePattern, digit, Regex.Four, Regex.Twice, Regex.Lit.
  repeat first [ rewrite digit_char_is_digit by (apply Z.mod_pos_bound; lia)
               | progress cbn ].
  reflexivity.
Qed.

(** With a year of four digits, the first ten characters of the ISO form
    are the UTC day. *)
Lemma slice_iso_utc_day (t : Z) :
  0 <= JsDate.YearFromTime t <= 9999 ->
  Str.slice0 10 (JsDate.toISOString t) = utc_day t.
Proof.
  intros Hy. unfold JsDate.toISOString, JsDate.isoYear.
  replace ((0 <=? JsDate.YearFromTime t) && (JsDate.YearFromTime t <=? 9999)) with true
    by (symmetry; apply andb_true_intro; split; lia).
  set (rest := "T" ++ _).
  replace (Num.fixed 4 (JsDate.YearFromTime t) ++ "-"
           ++ Num.fixed 2 (JsDate.MonthFromTime t + 1) ++ "-"
           ++ Num.fixed 2 (JsDate.DateFromTime t) ++ rest)
    with (utc_day t ++ rest).
  - replace 10%nat with (String.length (utc_day t)); [apply slice0_prefix|].
    unfold utc_day. rewrite !length_append, !fixed_length. reflexivity.
  - unfold utc_day. rewrite !append_assoc. reflexivity.
Qed.

(** Saving a document whose other paths are valid, by the date it
    carries. *)
Lemma saveEvent_by_date (fb : string -> option Z) (db : Database)
    (d : EventDocument) (raw : string) :
  valid_except "date" d = true -> time_accepted d = true -> blank raw = false ->
  match JsDate.parse fb raw with
  | None => saveEvent fb db (set_date raw d) = (db, set_date raw d, inl InvalidDate)
  | Some t =>
      slug_taken db (_id d) (next_slug d) = false ->
      exists db' d',
        saveEvent fb db (set_date raw d) = (db', d', inr tt)
        /\ date d' = Some (Str.slice0 10 (JsDate.toISOString t))
        /\ events db' !! _id d = Some d'
  end.
Proof.
  intros Hv Ht Hb.
  destruct (valid_except_ok "date" (set_date raw d)) as (H1 & H2 & H3).
  { exact Hv. }
  { unfold valid_except in Hv. apply andb_prop in Hv as [Hv _]. apply andb_prop in Hv as [Hv _].
    unfold required_strings in *. cbn [set_date title description overview image venue
      location date time mode audience organizer forallb] in *.
    unfold nonblank at 7. unfold not_nonblank_string. rewrite Hb.
    repeat match goal with
      | H : _ && _ = true |- _ => apply andb_prop in H as [? H]
      end.
    repeat match goal with
      | H : (?a =? "date")%string || ?b = true |- _ =>
          change (a =? "date")%string with false in H; cbn [orb] in H; rewrite H; clear H
      end.
    reflexivity. }
  unfold saveEvent. rewrite preSave_cases, H1, H2, H3.
  cbn [date time set_date default from_option id].
  destruct (JsDate.parse fb raw) as [t|]; [|reflexivity].
  cbv zeta. unfold time_accepted in Ht.
  destruct (match_time (Str.trim (default "" (time d)))) as [[g1 g2]|]; [|discriminate].
  destruct (out_of_range (Num.ofDigits g1) (Num.ofDigits g2)); [discriminate|].
  rewrite normalized_eq. intros Hs.
  change (slug_taken db (_id d) (next_slug d) = false) in Hs.
  match goal with
  | |- context [slug_taken db ?i ?s] => change (slug_taken db i s) with (slug_taken db (_id d) (next_slug d))
  end.
  rewrite Hs. eexists _, _. split; [reflexivity|]. split; [reflexivity|].
  apply (commit_lookup (normalized _ _ (set_date raw d))).
Qed.

(** The instants of the UTC day 2025-01-05. *)
Lemma utc_day_2025_01_05 (t : Z) :
  1736035200000 <= t < 1736121600000 ->
  JsDate.YearFromTime t = 2025 /\ utc_day t = "2025-01-05".
Proof.
  intros Ht.
  assert (D : JsDate.Day t = 20093)
    by (unfold JsDate.Day, JsDate.msPerDay; Z.div_mod_to_equations; lia).
  assert (Y : JsDate.YearFromTime t = 2025) by (unfold JsDate.YearFromTime; rewrite D; reflexivity).
  split; [exact Y|].
  unfold utc_day, JsDate.DateFromTime, JsDate.MonthFromTime, JsDate.DayWithinYear,
    JsDate.InLeapYear.
  rewrite Y, D. vm_compute. reflexivity.
Qed.

(** What the hook does with a date, on every host. For an Event write whose
    other fields are valid (and whose slug no other Event holds): the date
    is handed to the runtime's [Date]; when that fails the commit fails with
    InvalidDate; when it yields an instant whose UTC year has four digits,
    the date is overwritten with the YYYY-MM-DD form of the UTC day of that
    instant. So '2025-01-05' is stored as '2025-01-05' on every
    implementation, and '2025-1-5', which is outside the ECMAScript format,
    is stored as '2025-01-05' only on an implementation that reads it as an
    instant of that UTC day. *)
Lemma date_is_stored_as_its_utc_day
    (fb : string -> option Z) (db : Database) (d : EventDocument) :
  valid_except "date" d = true ->
  time_accepted d = true ->
  slug_taken db (_id d) (next_slug d) = false ->
  (forall t, fb "2025-1-5" = Some t -> 1736035200000 <= t < 1736121600000 ->
     exists db' d',
       saveEvent fb db (set_date "2025-1-5" d) = (db', d', inr tt)
       /\ date d' = Some "2025-01-05"
       /\ events db' !! _id d = Some d')
  /\ (exists db' d',
       saveEvent fb db (set_date "2025-01-05" d) = (db', d', inr tt)
       /\ date d' = Some "2025-01-05"
       /\ events db' !! _id d = Some d')
  /\ (forall raw, blank raw = false -> JsDate.parse fb raw = None ->
       saveEvent fb db (set_date raw d) = (db, set_date raw d, inl InvalidDate))
  /\ (forall raw t, blank raw = false -> JsDate.parse fb raw = Some t ->
       0 <= JsDate.YearFromTime t <= 9999 ->
       exists db' d',
         saveEvent fb db (set_date raw d) = (db', d', inr tt)
         /\ date d' = Some (utc_day t)
         /\ Regex.test storedDatePattern (utc_day t) = true
         /\ events db' !! _id d = Some d').
Proof.
  intros Hv Ht Hs.
  assert (G : forall raw t, blank raw = false -> JsDate.parse fb raw = Some t ->
       0 <= JsDate.YearFromTime t <= 9999 ->
       exists db' d',
         saveEvent fb db (set_date raw d) = (db', d', inr tt)
         /\ date d' = Some (utc_day t)
         /\ Regex.test storedDatePattern (utc_day t) = true
         /\ events db' !! _id d = Some d').
  { intros raw t Hb Hp Hy.
    pose proof (saveEvent_by_date fb db d raw Hv Ht Hb) as S. rewrite Hp in S.
    destruct (S Hs) as (db' & d' & E & D & L).
    exists db', d'. rewrite slice_iso_utc_day in D by exact Hy.
    repeat split; try assumption. apply utc_day_format. }
  split; [|split; [|split; [|exact G]]].
  - intros t Hf Hr.
    destruct (utc_day_2025_01_05 t Hr) as [Y U].
    destruct (G "2025-1-5" t eq_refl) as (db' & d' & E & D & _ & L).
    + unfold JsDate.parse.
      change (JsDate.read_date_only "2025-1-5") with (@None (Z * Z * Z)).
      cbv iota. rewrite Hf. unfold JsDate.TimeClip, JsDate.maxTime.
      replace (Z.abs t <=? 8640000000000000) with true by (symmetry; lia).
      reflexivity.
    + lia.
    + exists db', d'. rewrite U in D. auto.
  - destruct (G "2025-01-05" 1736035200000 eq_refl) as (db' & d' & E & D & _ & L).
    + vm_compute. reflexivity.
    + vm_compute. split; discriminate.
    + exists db', d'. auto.
  - intros raw Hb Hp.
    pose proof (saveEvent_by_date fb db d raw Hv Ht Hb) as S. rewrite Hp in S. exact S.
Qed.

(** West of UTC, here by five hours, local midnight of 5 January 2025 lies
    on the same UTC day, and '2025-1-5' is stored as '2025-01-05'. *)
Lemma date_is_stored_west_of_utc :
  exists db' d',
    saveEvent (local_midnight_host (-300)) empty_db (set_date "2025-1-5" sample_event)
    = (db', d', inr tt)
    /\ date d' = Some "2025-01-05"
    /\ events db' !! _id sample_event = Some d'.
Proof.
  apply (proj1 (date_is_stored_as_its_utc_day (local_midnight_host (-300))
                  empty_db sample_event eq_refl eq_refl eq_refl) 1736053200000).
  - vm_compute. reflexivity.
  - lia.
Qed.

(** C3 fails on the code. Where the runtime reads '2025-1-5' as midnight
    local time, as V8 does, and the local zone is east of UTC (here by one
    hour), the parsed instant is 23:00 UTC of 4 January 2025; the hook takes
    the day from the UTC form of that instant, so the otherwise valid Event
    commits with the date '2025-01-04', the day before the calendar date it
    was given. On the same host the same day written '2025-01-05' is read as
    midnight UTC and stored as '2025-01-05': the two spellings of one
    calendar date are stored as two different days. The hook parses in one
    time zone and formats in another. *)
Theorem C3_local_midnight_east_of_utc_stores_the_day_before :
  valid_except "date" sample_event = true
  /\ time_accepted sample_event = true
  /\ JsDate.parse (local_midnight_host 60) "2025-1-5" = Some 1736031600000
  /\ JsDate.toISOString 1736031600000 = "2025-01-04T23:00:00.000Z"
  /\ (exists db' d',
        saveEvent (local_midnight_host 60) empty_db (set_date "2025-1-5" sample_event)
        = (db', d', inr tt)
        /\ date d' = Some "2025-01-04"
        /\ events db' !! 1%N = Some d')
  /\ (exists db' d',
        saveEvent (local_midnight_host 60) empty_db (set_date "2025-01-05" sample_event)
        = (db', d', inr tt)
        /\ date d' = Some "2025-01-05"
        /\ events db' !! 1%N = Some d').
Proof.
  split; [reflexivity|]. split; [reflexivity|].
  split; [vm_compute; reflexivity|]. split; [vm_compute; reflexivity|].
  split; eexists _, _; (split; [vm_compute; reflexivity|]); split; reflexivity.
Qed.

(** C7 fails on the code for a year outside 0..9999. The date
    '+010000-01-01' is of the ECMAScript format and parses on every
    implementation; its ISO form starts with a sign and six digits of year,
    so the ten characters stored, '+010000-01', do not have the stored
    format. *)
Theorem C7_year_above_9999_breaks_the_stored_date_format :
  valid_except "date" sample_event = true
  /\ time_accepted sample_event = true
  /\ exists db' d',
       saveEvent strict_host empty_db (set_date "+010000-01-01" sample_event)
       = (db', d', inr tt)
       /\ date d' = Some "+010000-01"
       /\ Regex.test storedDatePattern "+010000-01" = false
       /\ events db' !! 1%N = Some d'.
Proof.
  split; [reflexivity|]. split; [reflexivity|].
  eexists _, _. split; [vm_compute; reflexivity|]. repeat split; reflexivity.
Qed.

(** X10. What does hold of every commit: the stored time has the stored format,
    with an hour of at most 23 and a minute of at most 59; and the stored
    date has the stored format when the UTC year of the parsed instant lies
    within 0..9999. *)
Lemma stored_formats_after_commit (fb : string -> option Z) (db db' : Database)
    (d d' : EventDocument) :
  saveEvent fb db d = (db', d', inr tt) ->
  (exists h m, 0 <= h <= 23 /\ 0 <= m <= 59
               /\ time d' = Some (Num.fixed 2 h ++ ":" ++ Num.fixed 2 m)
               /\ Regex.test storedTimePattern (Num.fixed 2 h ++ ":" ++ Num.fixed 2 m) = true)
  /\ (exists t, JsDate.parse fb (default "" (date d)) = Some t
                /\ date d' = Some (Str.slice0 10 (JsDate.toISOString t))
                /\ (0 <= JsDate.YearFromTime t <= 9999 ->
                    date d' = Some (utc_day t)
                    /\ Regex.test storedDatePattern (utc_day t) = true)).
Proof.
  intros H. apply saveEvent_commit_inv in H as (t & h & m & P & Hh & Hm & -> & _ & _).
  split.
  - exists h, m. repeat split; try lia.
    rewrite !fixed_2.
    unfold storedTimePattern, digit, Regex.Twice, Regex.Lit.
    repeat first [ rewrite digit_char_is_digit by (apply Z.mod_pos_bound; lia)
                 | progress cbn ].
    reflexivity.
  - exists t. split; [exact P|]. split; [reflexivity|].
    intros Hy. cbn [date clear_modified normalized].
    rewrite slice_iso_utc_day by exact Hy. split; [reflexivity|apply utc_day_format].
Qed.

(** ** Bookings (C5, C6, C9) *)

Lemma lit_lang (c : ascii) (s : string) :
  Regex.lang (Regex.Lit c) s <-> s = String c "".
Proof.
  unfold Regex.Lit, Char.is_char. split.
  - intros H. inversion H; subst.
    match goal with X : Ascii.eqb _ _ = true |- _ => apply Ascii.eqb_eq in X; subst end.
    reflexivity.
  - intros ->. constructor. apply Ascii.eqb_refl.
Qed.

Lemma star_class_lang (p : ascii -> bool) (s : string) :
  Regex.lang (Regex.Star (Regex.Class p)) s <-> Str.every p s = true.
Proof.
  split.
  - intros H. remember (Regex.Star (Regex.Class p)) as r eqn:E.
    induction H; try discriminate; [reflexivity|].
    injection E as ->. inversion H; subst. simpl.
    match goal with X : p _ = true |- _ => rewrite X end. simpl. auto.
  - induction s as [|c s IH]; simpl; intros H; [constructor|].
    apply andb_prop in H as [Hc Hs].
    change (String c s) with (String c "" ++ s).
    constructor; [constructor; exact Hc | auto].
Qed.

Lemma plus_class_lang (p : ascii -> bool) (s : string) :
  Regex.lang (Regex.Plus (Regex.Class p)) s <-> s <> "" /\ Str.every p s = true.
Proof.
  unfold Regex.Plus. split.
  - intros H. inversion H; subst.
    match goal with X : Regex.lang (Regex.Class _) _ |- _ => inversion X; subst end.
    match goal with X : Regex.lang (Regex.Star _) _ |- _ => apply star_class_lang in X end.
    simpl. split; [discriminate|].
    match goal with X : p _ = true |- _ => rewrite X end. simpl. assumption.
  - intros [N H]. destruct s as [|c s]; [contradiction|]. simpl in H.
    apply andb_prop in H as [Hc Hs].
    change (String c s) with (String c "" ++ s).
    constructor; [constructor; exact Hc | apply star_class_lang; exact Hs].
Qed.

(** X11. The strings [isValidEmail] accepts: a local part, an at sign, and a
    domain with a dot inside, all three parts non-empty and free of white
    space and at signs. *)
Lemma isValidEmail_shape (s : string) :
  Booking.isValidEmail s = true <->
  exists a b c,
    s = a ++ "@" ++ b ++ "." ++ c
    /\ a <> "" /\ b <> "" /\ c <> ""
    /\ Str.every Char.not_space_at a = true
    /\ Str.every Char.not_space_at b = true
    /\ Str.every Char.not_space_at c = true.
Proof.
  unfold Booking.isValidEmail, emailRegex. rewrite test_lang. split.
  - intros H.
    inversion H as [| |? ? a r1 Ha H1| | | |]; subst.
    inversion H1 as [| |? ? at1 r2 Hat H2| | | |]; subst.
    inversion H2 as [| |? ? b r3 Hb H3| | | |]; subst.
    inversion H3 as [| |? ? dot c Hdot Hc| | | |]; subst.
    apply lit_lang in Hat, Hdot. subst.
    apply plus_class_lang in Ha as [? ?], Hb as [? ?], Hc as [? ?].
    exists a, b, c. repeat split; assumption.
  - intros (a & b & c & -> & Na & Nb & Nc & Ea & Eb & Ec).
    repeat (constructor; [apply plus_class_lang; split; assumption|]).
    change ("@" ++ b ++ "." ++ c) with (String "@" "" ++ b ++ "." ++ c).
    constructor; [apply lit_lang; reflexivity|].
    constructor; [apply plus_class_lang; split; assumption|].
    change ("." ++ c) with (String "." "" ++ c).
    constructor; [apply lit_lang; reflexivity|].
    apply plus_class_lang; split; assumption.
Qed.

(** The order of the two setters of the e-mail path does not matter. *)
Lemma to_lower_space (c : ascii) : Char.is_space (Char.to_lower c) = Char.is_space c.
Proof. destruct c as [[] [] [] [] [] [] [] []]; reflexivity. Qed.

Lemma toLowerCase_skip (s : string) :
  Str.skip_while Char.is_space (Str.toLowerCase s)
  = Str.toLowerCase (Str.skip_while Char.is_space s).
Proof.
  induction s as [|c r IH]; simpl; [reflexivity|].
  rewrite to_lower_space. destruct (Char.is_space c); [exact IH|reflexivity].
Qed.

Lemma toLowerCase_chop (s : string) :
  Str.chop_while Char.is_space (Str.toLowerCase s)
  = Str.toLowerCase (Str.chop_while Char.is_space s).
Proof.
  induction s as [|c r IH]; simpl; [reflexivity|].
  rewrite IH, to_lower_space.
  destruct (Str.chop_while Char.is_space r); simpl; [|reflexivity].
  destruct (Char.is_space c); reflexivity.
Qed.

Lemma email_setters_commute (v : string) :
  Str.trim (Str.toLowerCase v) = Str.toLowerCase (Str.trim v).
Proof. unfold Str.trim. rewrite toLowerCase_skip. apply toLowerCase_chop. Qed.

(** C5. A Booking write without an eventId, or whose e-mail is absent,
    blank or not of the e-mail pattern, fails with MissingField or
    InvalidEmail while the hook has not asked the storage gateway anything:
    the hook is done before any existence query, and the list of
    identifiers asked about is empty. *)
Theorem C5_malformed_booking_fails_before_the_existence_query
    (gateway : ObjectId -> Booking.Answer) (db : Database) (b : Booking.Document) :
  Booking.eventId b = None
  \/ not_nonblank_string (Booking.email b) = true
  \/ (exists mail, Booking.email b = Some mail /\ Booking.isValidEmail mail = false) ->
  exists e,
    Booking.preSave b = Booking.Done (inl e)
    /\ saveBooking gateway db b = (db, [], inl e)
    /\ (Booking.eventId b = None -> e = MissingField "eventId")
    /\ (Booking.eventId b <> None -> not_nonblank_string (Booking.email b) = true ->
        e = MissingField "email")
    /\ (Booking.eventId b <> None -> not_nonblank_string (Booking.email b) = false ->
        e = InvalidEmail).
Proof.
  intros H. unfold saveBooking, Booking.preSave.
  destruct (Booking.eventId b) as [ev|].
  2:{ eexists. split; [reflexivity|]. split; [reflexivity|].
      split; [reflexivity|]. split; intros N; exfalso; apply N; reflexivity. }
  destruct (Booking.email b) as [mail|] eqn:M; cbn [not_nonblank_string] in *.
  2:{ eexists. split; [reflexivity|]. split; [reflexivity|].
      split; [discriminate|]. split; [reflexivity|]. discriminate. }
  destruct (blank mail) eqn:B.
  { eexists. split; [reflexivity|]. split; [reflexivity|].
    split; [discriminate|]. split; [reflexivity|]. discriminate. }
  destruct H as [H|[H|(mail' & E & H)]]; try discriminate.
  injection E as <-. rewrite H. cbn [negb].
  eexists. split; [reflexivity|]. split; [reflexivity|].
  split; [discriminate|]. split; [discriminate|]. reflexivity.
Qed.

Lemma C5_malformed_booking_witness :
  exists e,
    Booking.preSave (Booking.construct 7%N None (Some "ann@example.org")) = Booking.Done (inl e)
    /\ saveBooking (Event_exists empty_db) empty_db
         (Booking.construct 7%N None (Some "ann@example.org")) = (empty_db, [], inl e)
    /\ e = MissingField "eventId".
Proof.
  destruct (C5_malformed_booking_fails_before_the_existence_query
              (Event_exists empty_db) empty_db
              (Booking.construct 7%N None (Some "ann@example.org")))
    as (e & P & S & E & _); [left; reflexivity|].
  exists e. split; [exact P|]. split; [exact S|]. apply E. reflexivity.
Defined.

Lemma Event_exists_found (db : Database) (ev : ObjectId) :
  Event_exists db ev = Booking.Found <-> is_Some (events db !! ev).
Proof.
  unfold Event_exists. destruct (events db !! ev) as [e|].
  - split; [intros _; exists e; reflexivity | reflexivity].
  - split; [discriminate | intros [e E]; discriminate].
Qed.

Lemma test_after_void (a b : Regex.t) (s : string) :
  Regex.test (Regex.Seq (Regex.Seq Regex.Void a) b) s = false.
Proof. induction s as [|c s IH]; simpl; [reflexivity|exact IH]. Qed.

(** An e-mail that matches the pattern is not blank: the pattern wants a
    first character that is not white space. *)
Lemma valid_email_not_blank (mail : string) :
  Booking.isValidEmail mail = true -> blank mail = false.
Proof.
  unfold Booking.isValidEmail, emailRegex, Regex.Plus.
  destruct mail as [|c r]; [discriminate|].
  cbn [Regex.test Regex.deriv Regex.nullable andb].
  destruct (Char.not_space_at c) eqn:N.
  - intros _. apply blank_head. unfold Char.not_space_at in N.
    destruct (Char.is_space c); [discriminate|reflexivity].
  - rewrite test_after_void. discriminate.
Qed.

(** C6, as the code has it. A Booking write that carries an eventId and an
    e-mail of the e-mail pattern, and whose existence query is answered
    with no Event, asks the gateway once, about that eventId, fails with
    DanglingReference and leaves the store as it was. Whatever the e-mail,
    a Booking write commits only when the query was made for its eventId
    and found the Event: a write whose eventId the gateway does not find
    fails, and every failed write leaves the store as it was. *)
Theorem C6_no_booking_is_committed_against_a_missing_event
    (gateway : ObjectId -> Booking.Answer) (db : Database) (b : Booking.Document) :
  (forall ev mail,
     Booking.eventId b = Some ev ->
     Booking.email b = Some mail ->
     Booking.isValidEmail mail = true ->
     gateway ev = Booking.NotFound ->
     saveBooking gateway db b = (db, [ev], inl DanglingReference))
  /\ (forall db' asked r,
        saveBooking gateway db b = (db', asked, r) ->
        (r = inr tt ->
         exists ev, Booking.eventId b = Some ev /\ asked = [ev]
                    /\ gateway ev = Booking.Found
                    /\ bookings db' !! Booking.id b = Some b)
        /\ (forall ev, Booking.eventId b = Some ev -> gateway ev <> Booking.Found ->
            exists e, r = inl e /\ db' = db)
        /\ (forall e, r = inl e -> db' = db)).
Proof.
  split.
  { intros ev mail E M V G. unfold saveBooking, Booking.preSave.
    rewrite E, M, (valid_email_not_blank mail V), V. cbn [negb Booking.run].
    rewrite G. reflexivity. }
  intros db' asked r. unfold saveBooking. intros H.
  destruct (Booking.run gateway (Booking.preSave b)) as [asked0 r0] eqn:R.
  assert (Hdb : forall e, r0 = inl e -> db' = db /\ asked = asked0 /\ r = inl e).
  { intros e ->. injection H as <- <- <-. auto. }
  assert (Hok : r0 = inr tt ->
                exists ev, Booking.eventId b = Some ev /\ asked0 = [ev]
                           /\ gateway ev = Booking.Found).
  { intros ->. unfold Booking.preSave in R.
    destruct (Booking.eventId b) as [ev|]; [|discriminate].
    destruct (Booking.email b) as [mail|]; [|discriminate].
    destruct (blank mail); [discriminate|].
    destruct (Booking.isValidEmail mail); [|discriminate].
    cbn in R. destruct (gateway ev) eqn:G; try discriminate.
    injection R as <-. exists ev. auto. }
  split; [|split].
  - intros ->. destruct r0 as [e|[]].
    + destruct (Hdb e eq_refl) as (_ & _ & ?). discriminate.
    + destruct (Hok eq_refl) as (ev & E & -> & G).
      injection H as <- <-. exists ev. repeat split; try assumption.
      cbn [bookings]. apply lookup_insert_eq.
  - intros ev E G. destruct r0 as [e|[]].
    + destruct (Hdb e eq_refl) as (-> & _ & ->). exists e. auto.
    + destruct (Hok eq_refl) as (ev' & E' & _ & G'). congruence.
  - intros e ->. destruct r0 as [e0|[]].
    + destruct (Hdb e0 eq_refl) as (-> & _ & _). reflexivity.
    + injection H as _ _ ?. discriminate.
Qed.

Lemma C6_dangling_booking_witness :
  saveBooking (Event_exists db_after_create) db_after_create
    (Booking.construct 9%N (Some 42%N) (Some "ann@example.org"))
  = (db_after_create, [42%N], inl DanglingReference).
Proof.
  apply (proj1 (C6_no_booking_is_committed_against_a_missing_event
                  (Event_exists db_after_create) db_after_create
                  (Booking.construct 9%N (Some 42%N) (Some "ann@example.org")))
           42%N "ann@example.org");
    vm_compute; reflexivity.
Defined.

(** C6 as stated fails: no Event has the identifier 42, yet the Booking
    built for it with the e-mail 'not-an-email' fails with InvalidEmail,
    not with DanglingReference; the e-mail is checked first and the
    existence query is never made. Nothing is stored. *)
Lemma C6_a_malformed_booking_fails_before_the_reference_is_checked :
  events db_after_create !! 42%N = None
  /\ Event_exists db_after_create 42%N = Booking.NotFound
  /\ saveBooking (Event_exists db_after_create) db_after_create
       (Booking.construct 9%N (Some 42%N) (Some "not-an-email"))
     = (db_after_create, [], inl InvalidEmail).
Proof. repeat split; vm_compute; reflexivity. Qed.

(** C9. With an eventId the gateway finds, the Booking built from the
    e-mail '  FOO@BAR.com ' commits and is stored with the e-mail
    'foo@bar.com'; the Booking built from 'not-an-email' fails with
    InvalidEmail and nothing is stored. *)
Theorem C9_booking_email_is_normalised_or_rejected
    (gateway : ObjectId -> Booking.Answer) (db : Database) (i ev : ObjectId) :
  gateway ev = Booking.Found ->
  saveBooking gateway db (Booking.construct i (Some ev) (Some "  FOO@BAR.com "))
  = (mkDatabase (events db)
       (<[i := Booking.mkBooking i (Some ev) (Some "foo@bar.com")]> (bookings db)),
     [ev], inr tt)
  /\ saveBooking gateway db (Booking.construct i (Some ev) (Some "not-an-email"))
     = (db, [], inl InvalidEmail).
Proof.
  intros G. unfold saveBooking, Booking.construct. cbn [fmap option_fmap option_map].
  change (Booking.email_setter "  FOO@BAR.com ") with "foo@bar.com".
  change (Booking.email_setter "not-an-email") with "not-an-email".
  unfold Booking.preSave. cbn [Booking.eventId Booking.email Booking.id].
  change (blank "foo@bar.com") with false.
  change (Booking.isValidEmail "foo@bar.com") with true.
  change (blank "not-an-email") with false.
  change (Booking.isValidEmail "not-an-email") with false.
  cbn [negb Booking.run]. rewrite G. split; reflexivity.
Qed.

Lemma C9_booking_email_witness :
  saveBooking (Event_exists db_after_create) db_after_create
    (Booking.construct 9%N (Some 1%N) (Some "  FOO@BAR.com "))
  = (mkDatabase (events db_after_create)
       (<[9%N := Booking.mkBooking 9%N (Some 1%N) (Some "foo@bar.com")]>
          (bookings db_after_create)),
     [1%N], inr tt)
  /\ saveBooking (Event_exists db_after_create) db_after_create
       (Booking.construct 9%N (Some 1%N) (Some "not-an-email"))
     = (db_after_create, [], inl InvalidEmail).
Proof.
  apply (C9_booking_email_is_normalised_or_rejected
           (Event_exists db_after_create) db_after_create 9%N 1%N).
  vm_compute. reflexivity.
Defined.

(** * Further properties *)

(** ** [slugify] *)

Lemma slugify_as_described (s : string) : slugify s = slugify_spec s.
Proof.
  unfold slugify, slugify_spec.
  rewrite replace_runs_squeeze. apply replace_edge_dashes_strip.
Qed.

Lemma slug_char_not_dash (c : ascii) : Char.is_slug_char c = true -> is_dash c = false.
Proof. destruct c as [[] [] [] [] [] [] [] []]; vm_compute; congruence. Qed.

Lemma non_slug_dash (c : ascii) : is_dash c = true -> Char.non_slug_char c = true.
Proof. destruct c as [[] [] [] [] [] [] [] []]; vm_compute; congruence. Qed.

Section SkipChop.

Variables p q : ascii -> bool.

Lemma every_skip (s : string) : Str.every q s = true -> Str.every q (Str.skip_while p s) = true.
Proof.
  induction s as [|c r IH]; simpl; [auto|]. intros H.
  destruct (p c); [apply IH; apply andb_prop in H; tauto|exact H].
Qed.

Lemma every_chop (s : string) : Str.every q s = true -> Str.every q (Str.chop_while p s) = true.
Proof.
  induction s as [|c r IH]; simpl; [auto|]. intros H.
  apply andb_prop in H as [Hc Hr]. specialize (IH Hr).
  destruct (Str.chop_while p r) eqn:E.
  - destruct (p c); simpl; [reflexivity|]. rewrite Hc. reflexivity.
  - cbn [Str.every] in *. rewrite Hc. exact IH.
Qed.

(** Skipping and chopping only take away code units that satisfy [p]. *)
Lemma some_skip (s : string) :
  (forall c, q c = true -> p c = false) ->
  some_char q (Str.skip_while p s) = some_char q s.
Proof.
  intros D. induction s as [|c r IH]; simpl; [reflexivity|].
  destruct (p c) eqn:P; [|reflexivity].
  rewrite IH. destruct (q c) eqn:Q; [|reflexivity].
  apply D in Q. congruence.
Qed.

Lemma some_chop (s : string) :
  (forall c, q c = true -> p c = false) ->
  some_char q (Str.chop_while p s) = some_char q s.
Proof.
  intros D. induction s as [|c r IH]; simpl; [reflexivity|].
  destruct (Str.chop_while p r) eqn:E.
  - simpl in IH. rewrite <- IH.
    destruct (p c) eqn:P; simpl; [|rewrite orb_false_r; reflexivity].
    destruct (q c) eqn:Q; [|reflexivity]. apply D in Q. congruence.
  - cbn [some_char] in *. rewrite IH. reflexivity.
Qed.

Lemma skip_none (s : string) :
  (match s with String c _ => p c | "" => false end) = false -> Str.skip_while p s = s.
Proof. destruct s as [|c r]; simpl; [reflexivity|]. intros ->. reflexivity. Qed.

Lemma skip_head (s : string) :
  (match Str.skip_while p s with String c _ => p c | "" => false end) = false.
Proof.
  induction s as [|c r IH]; simpl; [reflexivity|].
  destruct (p c) eqn:P; [exact IH|exact P].
Qed.

(** Chopping keeps the first code unit when that one does not satisfy
    [p]. *)
Lemma chop_head (s : string) :
  (match s with String c _ => p c | "" => false end) = false ->
  (match Str.chop_while p s with String c _ => p c | "" => false end) = false.
Proof.
  destruct s as [|c r]; simpl; [reflexivity|]. intros P.
  destruct (Str.chop_while p r); [rewrite P|]; exact P.
Qed.

Lemma chop_cons (c : ascii) (r : string) :
  Str.chop_while p (String c r)
  = match Str.chop_while p r with
    | "" => if p c then "" else String c ""
    | r' => String c r'
    end.
Proof. reflexivity. Qed.

Lemma chop_idempotent (s : string) :
  Str.chop_while p (Str.chop_while p s) = Str.chop_while p s.
Proof.
  induction s as [|c r IH]; [reflexivity|].
  rewrite chop_cons.
  destruct (Str.chop_while p r) eqn:E.
  - destruct (p c) eqn:P; simpl; [reflexivity|]. rewrite P. reflexivity.
  - rewrite chop_cons, IH. reflexivity.
Qed.

End SkipChop.

Lemma skip_chop_fixed (p q : ascii -> bool) (s : string) :
  (forall c, q c = true -> p c = false) ->
  Str.every q s = true ->
  Str.skip_while p s = s /\ Str.chop_while p s = s.
Proof.
  intros D H. split.
  - destruct s as [|c r]; simpl in *; [reflexivity|].
    apply andb_prop in H as [Hc _]. rewrite (D c Hc). reflexivity.
  - induction s as [|c r IH]; [reflexivity|]. simpl in H.
    apply andb_prop in H as [Hc Hr]. rewrite chop_cons, (IH Hr), (D c Hc).
    destruct r; reflexivity.
Qed.

Lemma trim_idempotent (s : string) : Str.trim (Str.trim s) = Str.trim s.
Proof.
  unfold Str.trim.
  rewrite (skip_none Char.is_space (Str.chop_while _ _)).
  - apply chop_idempotent.
  - apply chop_head, skip_head.
Qed.

Lemma to_lower_idempotent (c : ascii) : Char.to_lower (Char.to_lower c) = Char.to_lower c.
Proof. destruct c as [[] [] [] [] [] [] [] []]; reflexivity. Qed.

Lemma toLowerCase_idempotent (s : string) :
  Str.toLowerCase (Str.toLowerCase s) = Str.toLowerCase s.
Proof.
  induction s as [|c r IH]; simpl; [reflexivity|].
  rewrite to_lower_idempotent, IH. reflexivity.
Qed.

Lemma slug_or_dash_lower (c : ascii) : slug_or_dash c = true -> Char.to_lower c = c.
Proof. destruct c as [[] [] [] [] [] [] [] []]; vm_compute; congruence. Qed.

Lemma slug_or_dash_not_space (c : ascii) : slug_or_dash c = true -> Char.is_space c = false.
Proof. destruct c as [[] [] [] [] [] [] [] []]; vm_compute; congruence. Qed.

Lemma slug_char_not_space (c : ascii) : Char.is_slug_char c = true -> Char.is_space c = false.
Proof. destruct c as [[] [] [] [] [] [] [] []]; vm_compute; congruence. Qed.

Lemma slug_char_lower (c : ascii) :
  Char.is_slug_char (Char.to_lower c) = true -> slug_or_dash (Char.to_lower c) = true.
Proof. unfold slug_or_dash. intros ->. reflexivity. Qed.

Lemma toLowerCase_fixed (s : string) :
  Str.every slug_or_dash s = true -> Str.toLowerCase s = s.
Proof.
  induction s as [|c r IH]; simpl; [reflexivity|]. intros H.
  apply andb_prop in H as [Hc Hr]. rewrite (slug_or_dash_lower c Hc), (IH Hr). reflexivity.
Qed.

(** What [squeeze] emits: slug characters and single dashes. *)
Lemma squeeze_chars (b : bool) (s : string) :
  Str.every slug_or_dash (squeeze Char.non_slug_char b s) = true.
Proof.
  revert b. induction s as [|c r IH]; intros b; simpl; [reflexivity|].
  destruct (Char.non_slug_char c) eqn:P.
  - destruct b; [apply IH|]. simpl. apply IH.
  - simpl. rewrite IH, andb_true_r.
    unfold slug_or_dash. unfold Char.non_slug_char in P.
    destruct (Char.is_slug_char c); [reflexivity|discriminate].
Qed.

Lemma squeeze_dashes (s : string) :
  forall b,
    no_double_dash (squeeze Char.non_slug_char b s) = true
    /\ (b = true -> starts_with_dash (squeeze Char.non_slug_char b s) = false).
Proof.
  induction s as [|c r IH]; intros b; simpl; [split; reflexivity|].
  destruct (Char.non_slug_char c) eqn:P.
  - destruct b.
    + apply IH.
    + split; [|discriminate]. cbn [no_double_dash].
      destruct (IH true) as [N S]. rewrite N, (S eq_refl). reflexivity.
  - assert (D : is_dash c = false).
    { apply slug_char_not_dash. unfold Char.non_slug_char in P.
      destruct (Char.is_slug_char c); [reflexivity|discriminate]. }
    split.
    + cbn [no_double_dash]. rewrite D. apply (IH false).
    + intros _. exact D.
Qed.

Lemma no_double_dash_skip (s : string) :
  no_double_dash s = true -> no_double_dash (Str.skip_while is_dash s) = true.
Proof.
  induction s as [|c r IH]; simpl; [auto|]. intros H.
  destruct (is_dash c) eqn:D.
  - apply IH. apply andb_prop in H. tauto.
  - cbn [no_double_dash]. rewrite D. exact H.
Qed.

Lemma starts_with_dash_chop (s : string) :
  starts_with_dash (Str.chop_while is_dash s) = true -> starts_with_dash s = true.
Proof.
  destruct s as [|c r]; [auto|]. rewrite chop_cons.
  destruct (Str.chop_while is_dash r); [destruct (is_dash c) eqn:D|]; simpl; auto.
Qed.

Lemma no_double_dash_chop (s : string) :
  no_double_dash s = true -> no_double_dash (Str.chop_while is_dash s) = true.
Proof.
  induction s as [|c r IH]; [auto|]. cbn [no_double_dash]. intros H.
  apply andb_prop in H as [H1 H2]. specialize (IH H2). rewrite chop_cons.
  destruct (Str.chop_while is_dash r) as [|a r'] eqn:E.
  - destruct (is_dash c) eqn:D; [reflexivity|]. cbn. rewrite D. reflexivity.
  - cbn [no_double_dash] in *. rewrite IH, andb_true_r.
    destruct (is_dash c) eqn:D; [|reflexivity]. cbn [andb negb] in *.
    destruct (starts_with_dash (String a r')) eqn:S; [|reflexivity].
    rewrite <- E in S. apply starts_with_dash_chop in S. rewrite S in H1. discriminate.
Qed.

Lemma ends_with_dash_chop (s : string) :
  ends_with_dash (Str.chop_while is_dash s) = false.
Proof.
  induction s as [|c r IH]; [reflexivity|]. rewrite chop_cons.
  destruct (Str.chop_while is_dash r) as [|a r'] eqn:E.
  - destruct (is_dash c) eqn:D; [reflexivity|]. simpl. exact D.
  - exact IH.
Qed.

Lemma chop_fixed (s : string) :
  ends_with_dash s = false -> Str.chop_while is_dash s = s.
Proof.
  induction s as [|c r IH]; [reflexivity|]. intros H. rewrite chop_cons.
  destruct r as [|a r'].
  - simpl in *. rewrite H. reflexivity.
  - rewrite IH by exact H. reflexivity.
Qed.

(** The four parts of the URL-safe form, for every result of [slugify]. *)
Lemma slugify_form_parts (value : string) :
  Str.every slug_or_dash (slugify value) = true
  /\ starts_with_dash (slugify value) = false
  /\ ends_with_dash (slugify value) = false
  /\ no_double_dash (slugify value) = true.
Proof.
  rewrite slugify_as_described. unfold slugify_spec, strip_dashes.
  set (u := squeeze Char.non_slug_char false _). fold is_dash.
  split; [apply every_chop, every_skip, squeeze_chars|].
  split; [apply (chop_head is_dash), skip_head|].
  split; [apply ends_with_dash_chop|].
  apply no_double_dash_chop, no_double_dash_skip, (squeeze_dashes _ false).
Qed.

(** X1. Every slug [slugify] returns is URL-safe: it holds only the
    characters a-z, 0-9 and the dash, it neither starts nor ends with a
    dash, and no two dashes follow each other. *)
Theorem X1_slugify_returns_a_url_safe_slug (value : string) :
  slug_form (slugify value) = true.
Proof.
  destruct (slugify_form_parts value) as (C & S & E & N).
  unfold slug_form. rewrite C, S, E, N. reflexivity.
Qed.

Lemma squeeze_fixed (s : string) :
  Str.every slug_or_dash s = true -> no_double_dash s = true ->
  squeeze Char.non_slug_char false s = s
  /\ (starts_with_dash s = false -> squeeze Char.non_slug_char true s = s).
Proof.
  induction s as [|c r IH]; [split; reflexivity|].
  cbn [Str.every no_double_dash squeeze starts_with_dash]. intros H N.
  apply andb_prop in H as [Hc Hr]. apply andb_prop in N as [N1 N2].
  destruct (IH Hr N2) as [F T].
  destruct (is_dash c) eqn:D.
  - rewrite (non_slug_dash c D). cbn [andb negb] in N1.
    assert (S : starts_with_dash r = false) by (destruct (starts_with_dash r); auto; discriminate).
    split; [|discriminate].
    rewrite (T S). unfold is_dash, Char.is_char in D. apply Ascii.eqb_eq in D. subst c.
    reflexivity.
  - unfold slug_or_dash in Hc. rewrite D, orb_false_r in Hc.
    assert (P : Char.non_slug_char c = false) by (unfold Char.non_slug_char; rewrite Hc; reflexivity).
    rewrite P, F. split; reflexivity.
Qed.

(** X2. [slugify] leaves a slug as it is, so applying it twice is the same
    as applying it once. *)
Theorem X2_slugify_is_idempotent (value : string) :
  slugify (slugify value) = slugify value.
Proof.
  destruct (slugify_form_parts value) as (C & S & E & N).
  set (v := slugify value) in *.
  rewrite slugify_as_described. unfold slugify_spec, strip_dashes, Str.trim.
  rewrite (toLowerCase_fixed v C).
  destruct (skip_chop_fixed Char.is_space slug_or_dash v slug_or_dash_not_space C) as [-> ->].
  rewrite (proj1 (squeeze_fixed v C N)).
  fold is_dash. rewrite (skip_none is_dash v).
  - apply chop_fixed, E.
  - destruct v; [reflexivity|exact S].
Qed.

Lemma some_squeeze (b : bool) (s : string) :
  some_char Char.is_slug_char (squeeze Char.non_slug_char b s)
  = some_char Char.is_slug_char s.
Proof.
  revert b. induction s as [|c r IH]; intros b; simpl; [reflexivity|].
  unfold Char.non_slug_char at 1.
  destruct (Char.is_slug_char c) eqn:P; cbn [negb].
  - simpl. rewrite P. reflexivity.
  - destruct b; [apply IH|]. simpl. apply IH.
Qed.

Lemma some_slugify (value : string) :
  some_char Char.is_slug_char (slugify value)
  = some_char Char.is_slug_char (Str.toLowerCase value).
Proof.
  rewrite slugify_as_described. unfold slugify_spec, strip_dashes, Str.trim.
  rewrite some_chop, some_skip by apply slug_char_not_dash.
  rewrite some_squeeze.
  rewrite some_chop, some_skip by apply slug_char_not_space.
  reflexivity.
Qed.

(** X3. [slugify] returns the empty slug exactly for the strings that, in
    lower case, hold no character of a-z0-9. *)
Theorem X3_slugify_is_empty_exactly_without_alphanumerics (value : string) :
  slugify value = "" <-> some_char Char.is_slug_char (Str.toLowerCase value) = false.
Proof.
  rewrite <- some_slugify. split; [intros ->; reflexivity|]. intros H.
  destruct (slugify_form_parts value) as (C & S & _ & _).
  destruct (slugify value) as [|c r]; [reflexivity|]. exfalso.
  simpl in *. apply andb_prop in C as [C _]. unfold slug_or_dash in C.
  rewrite S, orb_false_r in C. rewrite C in H. discriminate.
Qed.

(** X4. The slug does not depend on the letter case of the title or on
    white space around it. *)
Theorem X4_slugify_ignores_case_and_outer_space (value : string) :
  slugify (Str.toLowerCase value) = slugify value
  /\ slugify (Str.trim value) = slugify value.
Proof.
  unfold slugify. split.
  - rewrite toLowerCase_idempotent. reflexivity.
  - rewrite <- email_setters_commute, trim_idempotent. reflexivity.
Qed.

(** ** The Event hook *)

Lemma first_failure_inv (l : list (string * option string)) :
  match first_failure l with
  | inr _ => forallb (fun '(_, v) => nonblank v) l = true
  | inl e =>
      exists before f v after,
        e = MissingField f
        /\ l = (before ++ (f, v) :: after)%list
        /\ forallb (fun '(_, w) => nonblank w) before = true
        /\ nonblank v = false
  end.
Proof.
  induction l as [|[n v] l IH]; simpl; [reflexivity|].
  unfold assertNonEmptyString.
  assert (B : nonblank v = false ->
              exists before f w after,
                MissingField n = MissingField f
                /\ (n, v) :: l = (before ++ (f, w) :: after)%list
                /\ forallb (fun '(_, w) => nonblank w) before = true
                /\ nonblank w = false).
  { intros H. exists [], n, v, l. auto. }
  destruct v as [s|]; [|apply B; reflexivity].
  destruct (blank s) eqn:E; [apply B; unfold nonblank; simpl; rewrite E; reflexivity|].
  destruct (first_failure l) as [e|[]].
  - destruct IH as (before & f & w & after & -> & -> & Hb & Hw).
    exists ((n, Some s) :: before), f, w, after. repeat split; auto.
    simpl. rewrite Hb. unfold nonblank. simpl. rewrite E. reflexivity.
  - unfold nonblank at 1. simpl. rewrite E. exact IH.
Qed.

Lemma array_valid_inv (v : option (list (option string))) (n : string) :
  assertNonEmptyStringArray v n
  = if array_valid v then inr tt else inl (InvalidArrayField n).
Proof.
  unfold assertNonEmptyStringArray, array_valid.
  destruct v as [l|]; [|reflexivity].
  destruct (List.length l =? 0)%nat; [reflexivity|]. simpl.
  replace (existsb not_nonblank_string l) with (negb (forallb nonblank l)).
  - destruct (forallb nonblank l); reflexivity.
  - induction l as [|x l IH]; simpl; [reflexivity|].
    rewrite <- IH. unfold nonblank.
    destruct (not_nonblank_string x); simpl; [reflexivity|].
    destruct (forallb _ l); reflexivity.
Qed.

Lemma time_accepted_cases (d : EventDocument) :
  time_accepted d = true <->
  exists g1 g2,
    match_time (Str.trim (default "" (time d))) = Some (g1, g2)
    /\ out_of_range (Num.ofDigits g1) (Num.ofDigits g2) = false.
Proof.
  unfold time_accepted.
  destruct (match_time _) as [[g1 g2]|].
  - split.
    + intros H. exists g1, g2. split; [reflexivity|].
      destruct (out_of_range _ _); [discriminate|reflexivity].
    + intros (a & b & E & R). injection E as <- <-. rewrite R. reflexivity.
  - split; [discriminate|]. intros (a & b & E & _). discriminate.
Qed.

(** The outcome of the hook on any document: either the failure the first
    failing check explains, or the normalised document. *)
Lemma preSave_outcome (fb : string -> option Z) (d : EventDocument) :
  match preSave fb d with
  | (d', inl e) => explains fb d e
  | (d', inr _) =>
      all_valid d = true /\ time_accepted d = true
      /\ exists t h m,
           JsDate.parse fb (default "" (date d)) = Some t
           /\ 0 <= h <= 23 /\ 0 <= m <= 59
           /\ d' = normalized (Str.slice0 10 (JsDate.toISOString t))
                              (Num.fixed 2 h ++ ":" ++ Num.fixed 2 m) d
  end.
Proof.
  rewrite preSave_cases. unfold all_valid, date_parses.
  pose proof (first_failure_inv (required_strings d)) as F.
  destruct (first_failure (required_strings d)) as [e|[]].
  { destruct F as (before & f & v & after & -> & E & Hb & Hv).
    exists before, v, after. auto. }
  rewrite !array_valid_inv, F.
  destruct (array_valid (agenda d)) eqn:A; [|simpl; auto].
  destruct (array_valid (tags d)) eqn:T; [|simpl; auto 6].
  destruct (JsDate.parse fb (default "" (date d))) as [t|] eqn:P.
  2:{ simpl. unfold all_valid, date_parses. rewrite F, A, T, P. auto. }
  cbv zeta. unfold explains, all_valid, date_parses, time_accepted. rewrite F, A, T, P.
  destruct (match_time (Str.trim (default "" (time d)))) as [[g1 g2]|] eqn:M.
  - destruct (out_of_range (Num.ofDigits g1) (Num.ofDigits g2)) eqn:R.
    + repeat split; try reflexivity; discriminate.
    + rewrite normalized_eq. repeat split.
      apply match_time_groups in M as [M1 M2].
      unfold out_of_range in R.
      apply orb_false_elim in R as [R R4]. apply orb_false_elim in R as [R R3].
      apply orb_false_elim in R as [R1 R2].
      exists t, (Num.ofDigits g1), (Num.ofDigits g2).
      rewrite !pad2_fixed by lia. repeat split; try reflexivity; lia.
  - repeat split; reflexivity.
Qed.

(** No failure explains a document that is valid throughout. *)
Lemma valid_not_explained (fb : string -> option Z) (d : EventDocument) (e : Error) :
  all_valid d = true -> date_parses fb d = true -> time_accepted d = true ->
  explains fb d e -> False.
Proof.
  intros V D T O. destruct e; simpl in O; try contradiction.
  - destruct O as (before & v & after & L & _ & N).
    unfold all_valid in V. apply andb_prop in V as [V _]. apply andb_prop in V as [V _].
    rewrite L, forallb_app in V. apply andb_prop in V as [_ V]. simpl in V.
    rewrite N in V. discriminate.
  - unfold all_valid in V. apply andb_prop in V as [V Vt]. apply andb_prop in V as [_ Va].
    destruct O as (_ & [[_ A]|(_ & _ & A)]); congruence.
  - destruct O as (_ & O). congruence.
  - destruct O as (_ & _ & O & _). congruence.
Qed.

Lemma preSave_accepts (fb : string -> option Z) (d : EventDocument) :
  all_valid d = true -> date_parses fb d = true -> time_accepted d = true ->
  exists nd nt, preSave fb d = (normalized nd nt d, inr tt).
Proof.
  intros V D T. pose proof (preSave_outcome fb d) as O.
  destruct (preSave fb d) as [d' [e|[]]].
  - exfalso. exact (valid_not_explained fb d e V D T O).
  - destruct O as (_ & _ & t & h & m & _ & _ & _ & ->). eauto.
Qed.

(** X5. The hook lets a document through exactly when all required strings
    and both arrays are valid, the runtime can parse the date, and the
    trimmed time is H:MM or HH:MM with an hour up to 23 and a minute up to
    59. *)
Theorem X5_the_hook_accepts_exactly_the_valid_documents
    (fb : string -> option Z) (d : EventDocument) :
  (exists d', preSave fb d = (d', inr tt))
  <-> all_valid d = true /\ date_parses fb d = true /\ time_accepted d = true.
Proof.
  split.
  - intros (d' & P). pose proof (preSave_outcome fb d) as O. rewrite P in O.
    destruct O as (V & T & t & h & m & Hp & _).
    unfold date_parses. rewrite Hp. auto.
  - intros (V & D & T). destruct (preSave_accepts fb d V D T) as (nd & nt & P). eauto.
Qed.

(** X6. Whatever the outcome, the hook leaves the identifier, the title,
    the description, the overview, the image, the venue, the location, the
    mode, the audience, the agenda, the organizer and the tags of the
    document as they were, and every path other than the date, the time and
    the slug is modified after the hook exactly if it was before: the hook
    only ever assigns the date, the time and the slug. *)
Theorem X6_the_hook_assigns_only_date_time_and_slug
    (fb : string -> option Z) (d : EventDocument) :
  untouched d (fst (preSave fb d)).
Proof.
  assert (Same : untouched d d) by (repeat split).
  assert (Dated : forall v, untouched d (assign_date v d)).
  { intros v. repeat split. intros path Nd _ _. apply isModified_assign_date, Nd. }
  rewrite preSave_cases.
  destruct (first_failure (required_strings d)) as [e|[]]; [exact Same|].
  destruct (assertNonEmptyStringArray (agenda d) "agenda") as [e|[]]; [exact Same|].
  destruct (assertNonEmptyStringArray (tags d) "tags") as [e|[]]; [exact Same|].
  destruct (JsDate.parse fb (default "" (date d))) as [t|]; [|exact Same].
  cbv zeta.
  destruct (match_time (Str.trim (default "" (time d)))) as [[g1 g2]|]; [|apply Dated].
  destruct (out_of_range (Num.ofDigits g1) (Num.ofDigits g2)); [apply Dated|].
  rewrite normalized_eq. cbn [fst]. repeat split.
  intros path Nd Nt Ns. unfold isModified, normalized. cbn [modifiedPaths].
  rewrite !existsb_marked by (apply String.eqb_neq; assumption). reflexivity.
Qed.

(** X7. A failure of the hook is that of the first check that fails, in
    the order of the source: a MissingField names the first required string
    that is absent or blank; an InvalidArrayField comes only when all those
    strings are valid; InvalidDate only when the arrays are valid as well;
    InvalidTime only when the date has parsed too. The hook throws nothing
    else. *)
Theorem X7_the_first_failing_check_decides_the_error
    (fb : string -> option Z) (d d' : EventDocument) (e : Error) :
  preSave fb d = (d', inl e) -> explains fb d e.
Proof.
  intros H. pose proof (preSave_outcome fb d) as O. rewrite H in O. exact O.
Qed.

Lemma X7_first_failing_check_witness :
  explains strict_host
    (mkEvent 2%N (Some "Launch") None (Some "  ") None (Some "i") (Some "v") (Some "l")
       (Some "someday") (Some "25:61") (Some "m") (Some "a") (Some []) (Some "o") None [])
    (MissingField "description").
Proof.
  apply (X7_the_first_failing_check_decides_the_error strict_host _
           (mkEvent 2%N (Some "Launch") None (Some "  ") None (Some "i") (Some "v") (Some "l")
              (Some "someday") (Some "25:61") (Some "m") (Some "a") (Some []) (Some "o")
              None [])).
  vm_compute. reflexivity.
Defined.

(** ** Dates in the ECMAScript form *)

Lemma digit_char_not_space : forall k, 0 <= k < 10 -> Char.is_space (Num.digit_char k) = false.
Proof. by_cases_below 10%nat. Qed.

Lemma read_year_digit (c : ascii) (r : string) :
  Char.is_digit c = true ->
  JsDate.read_year (String c r) = JsDate.take_digits 4 0 (String c r).
Proof. destruct c as [[] [] [] [] [] [] [] []]; intros H; try reflexivity; discriminate H. Qed.

Lemma take_4_fixed (y : Z) (r : string) :
  0 <= y <= 9999 -> JsDate.take_digits 4 0 (Num.fixed 4 y ++ r) = Some (y, r).
Proof.
  intros Hy. rewrite fixed_4. cbn [append JsDate.take_digits].
  rewrite !digit_char_is_digit, !digit_char_value by (apply Z.mod_pos_bound; lia).
  do 2 f_equal. Z.div_mod_to_equations. lia.
Qed.

Lemma take_2_fixed (n : Z) (r : string) :
  0 <= n <= 99 -> JsDate.take_digits 2 0 (Num.fixed 2 n ++ r) = Some (n, r).
Proof.
  intros Hn. rewrite fixed_2. cbn [append JsDate.take_digits].
  rewrite !digit_char_is_digit, !digit_char_value by (apply Z.mod_pos_bound; lia).
  do 2 f_equal. Z.div_mod_to_equations. lia.
Qed.

Lemma read_iso_date (y m d : Z) :
  0 <= y <= 9999 -> 0 <= m <= 99 -> 0 <= d <= 99 ->
  JsDate.read_date_only (iso_date y m d) = Some (y, m, d).
Proof.
  intros Hy Hm Hd. unfold JsDate.read_date_only, iso_date.
  assert (Y : JsDate.read_year (Num.fixed 4 y ++ "-" ++ Num.fixed 2 m ++ "-" ++ Num.fixed 2 d)
              = Some (y, "-" ++ Num.fixed 2 m ++ "-" ++ Num.fixed 2 d)).
  { rewrite <- take_4_fixed by exact Hy. rewrite fixed_4. cbn [append].
    apply read_year_digit, digit_char_is_digit, Z.mod_pos_bound. lia. }
  rewrite Y. cbn [append]. rewrite take_2_fixed by exact Hm. cbn [append].
  replace (Num.fixed 2 d) with (Num.fixed 2 d ++ "") by (rewrite fixed_2; reflexivity).
  rewrite take_2_fixed by exact Hd. reflexivity.
Qed.

Lemma in_calendar_bounds (y m d : Z) :
  JsDate.in_calendar y m d = true -> 1 <= m <= 12 /\ 1 <= d <= 31.
Proof.
  unfold JsDate.in_calendar, JsDate.daysInMonth. intros H.
  apply andb_prop in H as [H H4]. apply andb_prop in H as [H H3].
  apply andb_prop in H as [H1 H2]. apply Z.leb_le in H1, H2, H3, H4.
  split; [lia|]. split; [lia|].
  assert (M : m = 1 \/ m = 2 \/ m = 3 \/ m = 4 \/ m = 5 \/ m = 6 \/ m = 7 \/ m = 8
              \/ m = 9 \/ m = 10 \/ m = 11 \/ m = 12) by lia.
  destruct M as [->|[->|[->|[->|[->|[->|[->|[->|[->|[->|[->| ->]]]]]]]]]]];
    try lia; destruct (JsDate.isLeap y); lia.
Qed.

(** An ISO date of a four-digit year that names a day of the calendar is
    parsed, without the fallback, to the midnight UTC that starts that day,
    and the UTC day of that instant is written the same way. *)
Lemma parse_iso_date (fb : string -> option Z) (y m d : Z) :
  0 <= y <= 9999 -> JsDate.in_calendar y m d = true ->
  exists t,
    JsDate.parse fb (iso_date y m d) = Some t
    /\ JsDate.YearFromTime t = y
    /\ utc_day t = iso_date y m d.
Proof.
  intros Hy C. destruct (in_calendar_bounds y m d C) as [Hm Hd].
  exists (JsDate.MakeDate (JsDate.MakeDay y (m - 1) d) 0).
  destruct (MakeDay_roundtrip y m d C) as (Y & M & D). cbv zeta in Y, M, D.
  split; [|split; [exact Y|]].
  - unfold JsDate.parse. rewrite read_iso_date by lia. rewrite C.
    unfold JsDate.TimeClip, JsDate.maxTime, JsDate.MakeDate, JsDate.MakeDay, JsDate.msPerDay.
    replace ((m - 1) / 12) with 0 by (Z.div_mod_to_equations; lia).
    replace ((m - 1) mod 12) with (m - 1) by (Z.div_mod_to_equations; lia).
    match goal with |- context [JsDate.daysBeforeMonth ?l ?k] =>
      assert (B : 0 <= JsDate.daysBeforeMonth l k <= 335)
    end.
    { assert (K : m - 1 = 0 \/ m - 1 = 1 \/ m - 1 = 2 \/ m - 1 = 3 \/ m - 1 = 4 \/ m - 1 = 5
                  \/ m - 1 = 6 \/ m - 1 = 7 \/ m - 1 = 8 \/ m - 1 = 9 \/ m - 1 = 10
                  \/ m - 1 = 11) by lia.
      destruct (JsDate.isLeap (y + 0));
        destruct K as [->|[->|[->|[->|[->|[->|[->|[->|[->|[->|[->| ->]]]]]]]]]]];
        cbn [JsDate.daysBeforeMonth]; lia. }
    match goal with |- (if ?c then _ else _) = _ => replace c with true; [reflexivity|] end.
    symmetry. apply Z.leb_le. unfold JsDate.DayFromYear.
    Z.div_mod_to_equations. lia.
  - unfold utc_day, iso_date. rewrite Y, M, D.
    replace (m - 1 + 1) with m by lia. reflexivity.
Qed.

Lemma iso_date_not_blank (y m d : Z) : blank (iso_date y m d) = false.
Proof.
  unfold iso_date. rewrite fixed_4. cbn [append].
  apply blank_head, digit_char_not_space, Z.mod_pos_bound. lia.
Qed.

(** X8. A date written YYYY-MM-DD that names a day of the calendar is
    stored exactly as it was given, whatever the runtime does with the
    strings outside the ECMAScript format. *)
Theorem X8_an_iso_date_is_stored_as_given
    (fb : string -> option Z) (db : Database) (doc : EventDocument) (y m d : Z) :
  valid_except "date" doc = true ->
  time_accepted doc = true ->
  slug_taken db (_id doc) (next_slug doc) = false ->
  0 <= y <= 9999 ->
  JsDate.in_calendar y m d = true ->
  exists db' doc',
    saveEvent fb db (set_date (iso_date y m d) doc) = (db', doc', inr tt)
    /\ date doc' = Some (iso_date y m d)
    /\ events db' !! _id doc = Some doc'.
Proof.
  intros Hv Ht Hs Hy C.
  destruct (parse_iso_date fb y m d Hy C) as (t & P & Y & U).
  pose proof (saveEvent_by_date fb db doc (iso_date y m d) Hv Ht (iso_date_not_blank y m d)) as S.
  rewrite P in S. destruct (S Hs) as (db' & doc' & E & D & L).
  exists db', doc'. rewrite slice_iso_utc_day, U in D by lia. auto.
Qed.

Lemma X8_an_iso_date_witness :
  exists db' doc',
    saveEvent (local_midnight_host 60) empty_db (set_date "2024-02-29" sample_event)
    = (db', doc', inr tt)
    /\ date doc' = Some "2024-02-29"
    /\ events db' !! 1%N = Some doc'.
Proof.
  apply (X8_an_iso_date_is_stored_as_given (local_midnight_host 60) empty_db
           sample_event 2024 2 29); try (vm_compute; reflexivity); lia.
Defined.

Ltac next_month_literal :=
  repeat match goal with
    | |- context [Z.pos ?p + 1] =>
        let v := eval vm_compute in (Z.pos p + 1) in change (Z.pos p + 1) with v
    | |- context [0 + 1] => change (0 + 1) with 1
    end.

(** The calendar fields of a time value name a day of the calendar. *)
Lemma date_in_calendar (t : Z) :
  JsDate.in_calendar (JsDate.YearFromTime t) (JsDate.MonthFromTime t + 1)
    (JsDate.DateFromTime t) = true.
Proof.
  pose proof (DayWithinYear_range t) as H.
  unfold JsDate.in_calendar, JsDate.DateFromTime, JsDate.MonthFromTime, JsDate.InLeapYear in *.
  generalize dependent (JsDate.DayWithinYear t). intros w H. cbv zeta.
  rewrite !andb_true_iff, !Z.leb_le.
  destruct (JsDate.isLeap (JsDate.YearFromTime t)) eqn:L;
    repeat match goal with
      | |- context [?a <? ?b] => destruct (Z.ltb_spec a b)
      end;
    next_month_literal; cbn [JsDate.daysInMonth]; rewrite ?L; lia.
Qed.

Lemma time_string_fixed (h m : Z) :
  Str.trim (Num.fixed 2 h ++ ":" ++ Num.fixed 2 m) = Num.fixed 2 h ++ ":" ++ Num.fixed 2 m
  /\ blank (Num.fixed 2 h ++ ":" ++ Num.fixed 2 m) = false.
Proof.
  assert (T : Str.trim (Num.fixed 2 h ++ ":" ++ Num.fixed 2 m)
              = Num.fixed 2 h ++ ":" ++ Num.fixed 2 m).
  { unfold Str.trim.
    destruct (skip_chop_fixed Char.is_space (fun c => negb (Char.is_space c))
                (Num.fixed 2 h ++ ":" ++ Num.fixed 2 m)) as [-> ->]; [| |reflexivity].
    - intros c. destruct (Char.is_space c); [discriminate|reflexivity].
    - rewrite !fixed_2. cbn [append Str.every].
      rewrite !digit_char_not_space by (apply Z.mod_pos_bound; lia). reflexivity. }
  split; [exact T|]. unfold blank. rewrite T, fixed_2. reflexivity.
Qed.

Lemma next_slug_normalized (nd nt : string) (d : EventDocument) :
  next_slug (normalized nd nt d) = next_slug d.
Proof.
  unfold next_slug at 1. unfold isModified. cbn [normalized modifiedPaths slug title].
  rewrite !existsb_marked by reflexivity.
  fold (isModified "title" d). unfold next_slug.
  destruct (isModified "title" d || falsy (slug d)) eqn:C.
  - destruct (isModified "title" d || falsy (Some (slugify (default "" (title d)))));
      reflexivity.
  - rewrite C. reflexivity.
Qed.

(** X9. Running the hook again on a document it has let through changes
    nothing, provided the year of the date has four digits: the document is
    accepted again and comes back as it is. *)
Theorem X9_the_hook_leaves_a_normalised_document_as_it_is
    (fb : string -> option Z) (d d' : EventDocument) :
  preSave fb d = (d', inr tt) ->
  (forall t, JsDate.parse fb (default "" (date d)) = Some t ->
             0 <= JsDate.YearFromTime t <= 9999) ->
  preSave fb d' = (d', inr tt).
Proof.
  intros H Hy. pose proof (preSave_outcome fb d) as O. rewrite H in O.
  destruct O as (V & _ & t & h & m & P & Hh & Hm & ->).
  specialize (Hy t P). rewrite slice_iso_utc_day by exact Hy.
  set (nt := Num.fixed 2 h ++ ":" ++ Num.fixed 2 m).
  change (utc_day t)
    with (iso_date (JsDate.YearFromTime t) (JsDate.MonthFromTime t + 1) (JsDate.DateFromTime t)).
  set (nd := iso_date _ _ _).
  destruct (parse_iso_date fb _ _ _ Hy (date_in_calendar t)) as (t' & P' & Y' & U').
  fold nd in P', U'.
  destruct (time_string_fixed h m) as [Tt Tb]. fold nt in Tt, Tb.
  assert (Db : blank nd = false) by apply iso_date_not_blank.
  unfold all_valid in V. apply andb_prop in V as [V Vt]. apply andb_prop in V as [Vs Va].
  rewrite preSave_cases.
  rewrite first_failure_ok.
  2:{ unfold required_strings in *.
      cbn [normalized title description overview image venue location date time mode
             audience organizer forallb] in *.
      repeat match goal with
        | X : _ && _ = true |- _ => apply andb_prop in X as [? X]
        end.
      repeat match goal with
        | X : nonblank (?f d) = true |- _ => rewrite X; clear X
        end.
      unfold nonblank, not_nonblank_string. rewrite Tb, Db. reflexivity. }
  rewrite !array_valid_ok by assumption.
  cbn [date time normalized default from_option id].
  rewrite P'. cbv zeta. rewrite Tt. unfold nt at 1. rewrite match_time_HHMM.
  rewrite !ofDigits_fixed_2 by lia.
  replace (out_of_range h m) with false
    by (unfold out_of_range; symmetry; repeat (apply orb_false_intro); lia).
  rewrite !pad2_fixed by lia. fold nt.
  rewrite slice_iso_utc_day, U' by lia.
  rewrite normalized_eq. f_equal.
  unfold normalized at 1. rewrite next_slug_normalized.
  change (slug (normalized nd nt d)) with (next_slug d).
  change (date (normalized nd nt d)) with (Some nd).
  change (time (normalized nd nt d)) with (Some nt).
  rewrite !marked_same. reflexivity.
Qed.

Lemma X9_normalised_document_witness :
  preSave strict_host (fst (preSave strict_host (set_time " 7:30 " created_event)))
  = (fst (preSave strict_host (set_time " 7:30 " created_event)), inr tt).
Proof.
  apply (X9_the_hook_leaves_a_normalised_document_as_it_is strict_host
           (set_time " 7:30 " created_event)).
  - vm_compute. reflexivity.
  - intros t E. vm_compute in E. injection E as <-. vm_compute. split; discriminate.
Defined.

(** ** Bookings *)

Lemma deriv_invariant (f : ascii -> ascii) (c : ascii) (r : Regex.t) :
  class_invariant f r ->
  Regex.deriv (f c) r = Regex.deriv c r /\ class_invariant f (Regex.deriv c r).
Proof.
  induction r; simpl; intros H; try (split; [reflexivity|exact I]).
  - rewrite H. split; [reflexivity|]. destruct (p c); exact I.
  - destruct H as [H1 H2]. destruct (IHr1 H1) as [E1 I1]. destruct (IHr2 H2) as [E2 I2].
    rewrite E1, E2. split; [reflexivity|].
    destruct (Regex.nullable r1); simpl; auto.
  - destruct H as [H1 H2]. destruct (IHr1 H1) as [E1 I1]. destruct (IHr2 H2) as [E2 I2].
    rewrite E1, E2. simpl. auto.
  - destruct (IHr H) as [E I']. rewrite E. simpl. auto.
Qed.

Lemma test_toLowerCase (r : Regex.t) (s : string) :
  class_invariant Char.to_lower r ->
  Regex.test r (Str.toLowerCase s) = Regex.test r s.
Proof.
  revert r. induction s as [|c s IH]; intros r H; simpl; [reflexivity|].
  destruct (deriv_invariant Char.to_lower c r H) as [E I']. rewrite E. apply IH, I'.
Qed.

Lemma emailRegex_ignores_case : class_invariant Char.to_lower emailRegex.
Proof.
  assert (A : forall c, Char.not_space_at (Char.to_lower c) = Char.not_space_at c)
    by (intros c; destruct c as [[] [] [] [] [] [] [] []]; reflexivity).
  assert (B : forall c, Char.is_char "@" (Char.to_lower c) = Char.is_char "@" c)
    by (intros c; destruct c as [[] [] [] [] [] [] [] []]; reflexivity).
  assert (C : forall c, Char.is_char "." (Char.to_lower c) = Char.is_char "." c)
    by (intros c; destruct c as [[] [] [] [] [] [] [] []]; reflexivity).
  unfold emailRegex, Regex.Plus, Regex.Lit. simpl. tauto.
Qed.

(** X12. Whether the hook finds the e-mail of a new Booking well-formed
    does not depend on its letter case or on white space around it: the
    e-mail the setters produce passes the pattern exactly when the trimmed
    input does. *)
Theorem X12_email_validity_ignores_case_and_outer_space (v : string) :
  Booking.isValidEmail (Booking.email_setter v) = Booking.isValidEmail (Str.trim v).
Proof.
  unfold Booking.email_setter, Booking.isValidEmail.
  rewrite email_setters_commute. apply test_toLowerCase, emailRegex_ignores_case.
Qed.

(** X13. The setters of the e-mail path are idempotent: an e-mail that has
    passed through them once passes through them unchanged. *)
Theorem X13_email_setters_are_idempotent (v : string) :
  Booking.email_setter (Booking.email_setter v) = Booking.email_setter v.
Proof.
  unfold Booking.email_setter.
  rewrite <- (email_setters_commute (Str.toLowerCase v)).
  rewrite trim_idempotent, toLowerCase_idempotent. reflexivity.
Qed.

(** X14. A Booking write commits exactly when the document has an eventId,
    its e-mail matches the pattern, and the existence query finds the Event;
    the commit stores the document under its identifier and touches nothing
    else. Whatever the outcome, the hook asks the gateway at most once, and
    only about the eventId of the document. *)
Theorem X14_a_booking_commits_exactly_when_wellformed_and_resolved
    (gateway : ObjectId -> Booking.Answer) (db : Database) (b : Booking.Document) :
  ((exists db' asked, saveBooking gateway db b = (db', asked, inr tt))
   <-> exists ev mail,
         Booking.eventId b = Some ev /\ Booking.email b = Some mail
         /\ Booking.isValidEmail mail = true /\ gateway ev = Booking.Found)
  /\ (forall db' asked, saveBooking gateway db b = (db', asked, inr tt) ->
        db' = mkDatabase (events db) (<[Booking.id b := b]> (bookings db)))
  /\ (forall db' asked r, saveBooking gateway db b = (db', asked, r) ->
        asked = [] \/ exists ev, Booking.eventId b = Some ev /\ asked = [ev]).
Proof.
  unfold saveBooking, Booking.preSave.
  destruct (Booking.eventId b) as [ev|].
  2:{ split; [split|split].
      - intros (db' & asked & E). discriminate.
      - intros (ev & mail & E & _). discriminate.
      - intros db' asked E. discriminate.
      - intros db' asked r E. injection E as _ <- _. left. reflexivity. }
  destruct (Booking.email b) as [mail|].
  2:{ split; [split|split].
      - intros (db' & asked & E). discriminate.
      - intros (ev' & mail & _ & E & _). discriminate.
      - intros db' asked E. discriminate.
      - intros db' asked r E. injection E as _ <- _. left. reflexivity. }
  destruct (Booking.isValidEmail mail) eqn:V.
  2:{ assert (E0 : (if blank mail then Booking.Done (inl (MissingField "email"))
                    else Booking.Done (inl InvalidEmail) : Booking.Async unit)
                   = Booking.Done (inl (if blank mail then MissingField "email" else InvalidEmail)))
        by (destruct (blank mail); reflexivity).
      cbn [negb]. rewrite E0. cbn [Booking.run].
      split; [split|split].
      - intros (db' & asked & E). discriminate.
      - intros (ev' & mail' & _ & E & V' & _). injection E as <-. congruence.
      - intros db' asked E. discriminate.
      - intros db' asked r E. injection E as _ <- _. left. reflexivity. }
  rewrite (valid_email_not_blank mail V). cbn [negb Booking.run].
  destruct (gateway ev) eqn:G; cbn.
  - split; [split|split].
    + intros _. exists ev, mail. auto.
    + intros _. eexists _, _. reflexivity.
    + intros db' asked E. injection E as <- _. reflexivity.
    + intros db' asked r E. injection E as _ <- _. right. exists ev. auto.
  - split; [split|split].
    + intros (db' & asked & E). discriminate.
    + intros (ev' & mail' & E & _ & _ & G'). injection E as <-. congruence.
    + intros db' asked E. discriminate.
    + intros db' asked r E. injection E as _ <- _. right. exists ev. auto.
  - split; [split|split].
    + intros (db' & asked & E). discriminate.
    + intros (ev' & mail' & E & _ & _ & G'). injection E as <-. congruence.
    + intros db' asked E. discriminate.
    + intros db' asked r E. injection E as _ <- _. right. exists ev. auto.
Qed.

(** ** The store *)


(** What a save of an Event does to the store: nothing, or one insertion
    under the identifier of the document, of a document whose slug no other
    stored Event holds. *)
Lemma saveEvent_store (fb : string -> option Z) (db db' : Database)
    (doc doc' : EventDocument) (r : Throws unit) :
  saveEvent fb db doc = (db', doc', r) ->
  db' = db
  \/ (exists stored,
        db' = mkDatabase (<[_id doc := stored]> (events db)) (bookings db)
        /\ slug_taken db (_id doc) (slug stored) = false).
Proof.
  unfold saveEvent. pose proof (X := preSave_outcome fb doc).
  destruct (preSave fb doc) as [d1 [e|[]]].
  - intros E. injection E as <- _ _. left. reflexivity.
  - destruct X as (_ & _ & t & h & m & _ & _ & _ & ->).
    destruct (slug_taken _ _ _) eqn:S.
    + intros E. injection E as <- _ _. left. reflexivity.
    + intros E. injection E as <- _ _. right. eexists. split; [reflexivity|exact S].
Qed.

Lemma saveBooking_store (gateway : ObjectId -> Booking.Answer) (db db' : Database)
    (b : Booking.Document) (asked : list ObjectId) (r : Throws unit) :
  saveBooking gateway db b = (db', asked, r) ->
  db' = db
  \/ (db' = mkDatabase (events db) (<[Booking.id b := b]> (bookings db))
      /\ exists ev, Booking.eventId b = Some ev /\ gateway ev = Booking.Found).
Proof.
  unfold saveBooking, Booking.preSave.
  destruct (Booking.eventId b) as [ev|]; [|intros E; injection E as <- _ _; auto].
  destruct (Booking.email b) as [mail|]; [|intros E; injection E as <- _ _; auto].
  destruct (blank mail); [intros E; injection E as <- _ _; auto|].
  destruct (Booking.isValidEmail mail); cbn [negb];
    [|intros E; injection E as <- _ _; auto].
  cbn [Booking.run]. destruct (gateway ev) eqn:G; cbn;
    intros E; injection E as <- _ _; auto.
  right. split; [reflexivity|]. exists ev. auto.
Qed.



(** X16. However Events and Bookings were saved, every stored Booking names
    an Event that is stored: a Booking is stored only after the existence
    query found its Event, and no save takes an Event away. *)
Theorem X16_stored_bookings_reference_stored_events (db : Database) :
  reachable db -> references_resolve db.
Proof.
  induction 1 as [|fb db doc db' doc' r R IH S|db b db' asked r R IH S].
  - intros i b L. cbn in L. rewrite lookup_empty in L. discriminate.
  - apply saveEvent_store in S as [->|(stored & -> & _)]; [exact IH|].
    intros i b L. cbn [bookings events] in *.
    destruct (IH i b L) as (ev & E & [x X]). exists ev. split; [exact E|].
    destruct (decide (ev = _id doc)) as [->|N].
    + rewrite lookup_insert_eq. eauto.
    + rewrite lookup_insert_ne by congruence. eauto.
  - apply saveBooking_store in S as [->|[-> (ev & E & G)]]; [exact IH|].
    intros i b' L. cbn [bookings events] in *.
    destruct (decide (i = Booking.id b)) as [->|N].
    + rewrite lookup_insert_eq in L. injection L as <-.
      exists ev. split; [exact E|]. apply Event_exists_found, G.
    + rewrite lookup_insert_ne in L by congruence. apply (IH i b' L).
Qed.

Lemma X16_stored_bookings_witness : references_resolve db_after_booking.
Proof.
  apply X16_stored_bookings_reference_stored_events.
  apply (reach_booking db_after_update
           (Booking.construct 9%N (Some 1%N) (Some "  FOO@BAR.com "))
           db_after_booking [1%N] (inr tt)).
  - apply (reach_event strict_host db_after_create
             (assign_description "Now with workshops" stored_event)
             db_after_update updated_event (inr tt)).
    + apply (reach_event strict_host empty_db created_event db_after_create stored_event
               (inr tt)); [apply reach_empty | vm_compute; reflexivity].
    + vm_compute. reflexivity.
  - vm_compute. reflexivity.
Defined.

Lemma X14_a_booking_commits_witness :
  (exists db' asked,
     saveBooking (Event_exists db_after_update) db_after_update
       (Booking.construct 9%N (Some 1%N) (Some "  FOO@BAR.com ")) = (db', asked, inr tt))
  /\ bookings db_after_booking !! 9%N
     = Some (Booking.mkBooking 9%N (Some 1%N) (Some "foo@bar.com")).
Proof.
  destruct (X14_a_booking_commits_exactly_when_wellformed_and_resolved
              (Event_exists db_after_update) db_after_update
              (Booking.construct 9%N (Some 1%N) (Some "  FOO@BAR.com "))) as ([_ A] & B & _).
  split.
  - apply A. exists 1%N, "foo@bar.com". repeat split; vm_compute; reflexivity.
  - rewrite (B db_after_booking [1%N]) by (vm_compute; reflexivity).
    cbn [bookings]. apply lookup_insert_eq.
Defined.

Lemma slug_taken_true (db : Database) (i j : ObjectId) (e : EventDocument) :
  events db !! j = Some e -> j <> i -> slug_taken db i (slug e) = true.
Proof.
  intros L N. unfold slug_taken. apply existsb_exists. exists (j, e). split.
  - apply list_elem_of_In, elem_of_map_to_list. exact L.
  - apply andb_true_intro. split.
    + apply negb_true_iff, N.eqb_neq. exact N.
    + apply bool_decide_eq_true. reflexivity.
Qed.

(** X17. A valid Event whose slug, as the hook leaves it, is held by
    another stored Event is not stored: the save fails with DuplicateKey
    and the store is left as it was. Because of X4 this turns away, for
    instance, a new Event whose title differs from a stored one only in
    letter case. *)
Theorem X17_a_taken_slug_is_turned_away
    (fb : string -> option Z) (db : Database) (d e : EventDocument) (j : ObjectId) :
  all_valid d = true -> date_parses fb d = true -> time_accepted d = true ->
  events db !! j = Some e -> j <> _id d -> slug e = next_slug d ->
  exists d', saveEvent fb db d = (db, d', inl DuplicateKey) /\ slug d' = slug e.
Proof.
  intros V D T L N S.
  destruct (preSave_accepts fb d V D T) as (nd & nt & P).
  unfold saveEvent. rewrite P. cbn [normalized _id slug]. rewrite <- S.
  rewrite (slug_taken_true db (_id d) j e L N).
  eexists. split; [reflexivity|]. cbn [slug]. symmetry. exact S.
Qed.

Lemma X17_a_taken_slug_witness :
  exists d',
    saveEvent strict_host db_after_update
      (construct (mkEvent 2%N (Some "  MY EVENT ") None (Some "Another day")
                    (Some "o") (Some "i") (Some "v") (Some "l") (Some "2025-03-01")
                    (Some "18:00") (Some "online") (Some "a") (Some [Some "x"])
                    (Some "org") (Some [Some "t"]) []))
    = (db_after_update, d', inl DuplicateKey)
    /\ slug d' = slug updated_event.
Proof.
  apply (X17_a_taken_slug_is_turned_away strict_host db_after_update _ updated_event 1%N);
    try (vm_compute; reflexivity).
  vm_compute. discriminate.
Defined.

Lemma stored_formats_witness :
  exists h m,
    0 <= h <= 23 /\ 0 <= m <= 59
    /\ time stored_event = Some (Num.fixed 2 h ++ ":" ++ Num.fixed 2 m)
    /\ Regex.test storedTimePattern (Num.fixed 2 h ++ ":" ++ Num.fixed 2 m) = true.
Proof.
  apply (stored_formats_after_commit strict_host empty_db db_after_create
           created_event stored_event).
  vm_compute. reflexivity.
Defined.
